(** * Mind-map editor (src/App.tsx): scene model, history and interaction engine

    A shallow embedding of the editor's pure helpers, of its state (React
    state cells and mutable refs) and of its event handlers, followed by the
    properties established about them.

    Conventions of the embedding.
    - A JavaScript [number] that holds an identifier is a [Z]; every other
      [number] is a rational [Q] with exact arithmetic, so rounding error,
      NaN, the infinities and the negative zero of IEEE doubles are outside
      the model. What cannot be computed on rationals ([Math.exp],
      [Math.cos], [Math.hypot], ...) is a field of the record [Host].
    - A JavaScript string is the list of its UTF-16 code units, so that
      [length] is the [.length] of the source.
    - A value that may be [undefined] or [null] is an [option]; a [Set] of
      numbers is a list without repetition in insertion order.
    - A handler reads the state cells of the render it was created in (its
      closure) and queues updates, and it reads and writes the refs at once.
      The handlers below take that render's state [r], read the cells from
      [r], and thread the pending state [p] through the ref writes and the
      queued updates in source order. An event runs the handlers of the
      render made from the state the previous event left.
    - A handler that may throw, may not return, or may store [undefined]
      where a number is declared has a result of type [run].
    - [setTimeout(f, 0)] queues a [Timer]; [flush] fires the queue. *)

From Stdlib Require Import List ZArith NArith QArith Qround Qminmax Qabs.
From Stdlib Require Import Bool Lia Lqa String Ascii Eqdep_dec.
Import ListNotations.
Open Scope Q_scope.
Set Warnings "-register-all".

(** ** JavaScript values used by the source *)

(** UTF-16 code units. *)
Definition jsstring := list N.

(** An ASCII literal as a JavaScript string. *)
Definition str (s : string) : jsstring :=
  map N_of_ascii (list_ascii_of_string s).

Definition truthy_str (s : jsstring) : bool :=
  match s with [] => false | _ => true end.

(** [text.length] as a number. *)
Definition len (s : jsstring) : Q := inject_Z (Z.of_nat (List.length s)).

(** The class [\s] of a JavaScript regular expression. *)
Definition is_space (c : N) : bool :=
  ((9 <=? c) && (c <=? 13) || (c =? 32) || (c =? 160) || (c =? 5760)
   || (8192 <=? c) && (c <=? 8202) || (c =? 8232) || (c =? 8233)
   || (c =? 8239) || (c =? 8287) || (c =? 12288) || (c =? 65279))%N.

(** [s.split(/\s+/)]: the pieces between maximal runs of white space, the
    empty pieces at either end included. *)
Fixpoint split_ws_from (cur : jsstring) (in_sep : bool) (s : jsstring)
  : list jsstring :=
  match s with
  | [] => [rev cur]
  | c :: r =>
      if is_space c then
        if in_sep then split_ws_from cur true r
        else rev cur :: split_ws_from [] true r
      else split_ws_from (c :: cur) false r
  end.

Definition split_ws (s : jsstring) : list jsstring := split_ws_from [] false s.

(** [s.replace(/\s+/g, " ")]. *)
Fixpoint replace_ws (in_sep : bool) (s : jsstring) : jsstring :=
  match s with
  | [] => []
  | c :: r =>
      if is_space c then
        if in_sep then replace_ws true r else 32%N :: replace_ws true r
      else c :: replace_ws false r
  end.

Fixpoint trim_start (s : jsstring) : jsstring :=
  match s with
  | [] => []
  | c :: r => if is_space c then trim_start r else s
  end.

Definition trim (s : jsstring) : jsstring :=
  rev (trim_start (rev (trim_start s))).

(** [Math.round], [Math.ceil], [Math.max], [Math.min] on exact numbers. *)
Definition Math_round (v : Q) : Q := inject_Z (Qfloor (v + (1 # 2))).
Definition Math_ceil (v : Q) : Q := inject_Z (Qceiling v).
Definition Math_max (a b : Q) : Q := Qmax a b.
Definition Math_min (a b : Q) : Q := Qmin a b.

(** ** Constants and utilities *)

Definition BASE_W : Q := 120.
Definition BASE_H : Q := 64.
Definition DRAG_THRESHOLD : Q := 16.
Definition CHILD_RADIUS : Q := 160.

Definition clamp (v a b : Q) : Q := Math_max a (Math_min b v).

Definition approxTextWidth (text : jsstring) (fontSize : Q) : Q :=
  len text * fontSize * (6 # 10).

(** ** Label layout *)

Record Layout := mkLayout {
  lines : list jsstring;
  width : Q;
  height : Q;
  lineHeight : Q;
  paddingX : Q;
  paddingY : Q;
  fontSize : Q
}.

Module Label.

Definition maxLines : nat := 3.
Definition padX : Q := 16.
Definition padY : Q := 12.

(** One turn of the [for (const w of ...)] loop of [rebuild]: the lines
    pushed so far and the line being filled. *)
Definition place (baseFont width : Q) (acc : list jsstring * jsstring)
           (w : jsstring) : list jsstring * jsstring :=
  let '(ls, current) := acc in
  let test := if truthy_str current then current ++ [32%N] ++ w else w in
  if Qle_bool (approxTextWidth test baseFont) (width - padX * 2)
  then (ls, test)
  else ((if truthy_str current then ls ++ [current] else ls), w).

(** The wrapping part of [rebuild], up to the final [lines.push]. *)
Definition wrap (baseFont width : Q) (ws : list jsstring) : list jsstring :=
  let '(ls, current) := fold_left (place baseFont width) ws ([], []) in
  if truthy_str current then ls ++ [current] else ls.

(** [label.replace(/\s+/g, " ").trim().length || 1]. *)
Definition textLen (label : jsstring) : Q :=
  match trim (replace_ws false label) with
  | [] => 1
  | t => len t
  end.

(** The width [rebuild] asks for after a pass with too many lines. *)
Definition widened (label : jsstring) (baseFont width : Q) : Q :=
  let targetCharsPerLine := Math_ceil (textLen label / inject_Z (Z.of_nat maxLines)) in
  Math_max width (Math_ceil (targetCharsPerLine * baseFont * (6 # 10) + padX * 2)).

(** [rebuild()]: the new [lines], the new [width] and the returned flag. *)
Definition rebuild (label : jsstring) (baseFont : Q) (words : list jsstring)
           (width : Q) : list jsstring * Q * bool :=
  let ls := wrap baseFont width
                 (match words with [] => [label] | _ => words end) in
  if (maxLines <? List.length ls)%nat
  then (ls, widened label baseFont width, false)
  else (ls, width, true).

(** [for (let i = 0; i < 6; i++) if (rebuild()) break;] with [n] turns
    left, on the current [lines] and [width]. *)
Fixpoint attempts (n : nat) (label : jsstring) (baseFont : Q)
         (words : list jsstring) (st : list jsstring * Q)
  : list jsstring * Q :=
  match n with
  | O => st
  | S k =>
      let '(ls, w, ok) := rebuild label baseFont words (snd st) in
      if ok then (ls, w) else attempts k label baseFont words (ls, w)
  end.

End Label.

Definition layoutLabel (label : jsstring) (baseFont minW : Q) : Layout :=
  let lineHeight := Math_round (baseFont * (115 # 100)) in
  let words := filter truthy_str (split_ws label) in
  let '(ls, width0) :=
    Label.attempts 6 label baseFont words ([], Math_max minW BASE_W) in
  let textW :=
    fold_right Math_max 0 (map (fun t => approxTextWidth t baseFont) ls) in
  let width := Math_max width0 (Math_ceil (textW + Label.padX * 2)) in
  let height :=
    Math_max BASE_H
      (Math_ceil (inject_Z (Z.of_nat (List.length ls)) * lineHeight + Label.padY * 2)) in
  {| lines := match ls with [] => [[]] | _ => ls end;
     width := width;
     height := height;
     lineHeight := lineHeight;
     paddingX := Label.padX;
     paddingY := Label.padY;
     fontSize := baseFont |}.

(** ** Parsed JSON data

    What [JSON.parse] returns. [undefined] is not JSON data: a value that
    may be [undefined] is an [option json]. *)
Inductive json :=
| JNull
| JBool (b : bool)
| JNum (q : Q)
| JStr (s : jsstring)
| JArr (items : list json)
| JObj (fields : list (jsstring * json)).

(** A computation that may throw. *)
Inductive outcome (A : Type) :=
| Ok (a : A)
| Throw.
Arguments Ok {A} a.
Arguments Throw {A}.

Definition bind {A B} (m : outcome A) (k : A -> outcome B) : outcome B :=
  match m with Ok a => k a | Throw => Throw end.

Notation "x <- m ;; k" := (bind m (fun x => k))
  (at level 61, m at next level, right associativity).

(** ** Data model *)

Record MindNode := mkNode {
  n_id : Z;
  n_label : jsstring;
  n_x : Q;
  n_y : Q;
  n_w : Q;
  n_h : Q;
  n_strokeColor : json;
  n_fillColor : option json;
  n_bold : bool
}.

Record Link := mkLink {
  e_id : Z;
  e_source : Z;
  e_target : Z;
  e_label : option jsstring;
  e_dashed : option bool
}.

Record Point := mkPoint { p_x : Q; p_y : Q }.

(** ** [Set<number>]

    A JavaScript [Set] iterates in insertion order and holds no value
    twice: a list without repetition, the invariant kept as a boolean so
    that two sets with the same items are equal. *)

Definition mem (v : Z) (l : list Z) : bool := existsb (Z.eqb v) l.

Fixpoint distinct (l : list Z) : bool :=
  match l with
  | [] => true
  | v :: r => negb (mem v r) && distinct r
  end.

Record NumSet := mkSet {
  items : list Z;
  items_distinct : distinct items = true
}.

(** [set.add(v)] on the items. *)
Definition add_item (l : list Z) (v : Z) : list Z :=
  if mem v l then l else l ++ [v].

Lemma mem_app v l r : mem v (l ++ r) = mem v l || mem v r.
Proof. unfold mem. apply existsb_app. Qed.

Lemma distinct_snoc l v : distinct l = true -> mem v l = false ->
  distinct (l ++ [v]) = true.
Proof.
  induction l as [|a l IH]; simpl; intros Hd Hm; [reflexivity|].
  apply andb_true_iff in Hd. destruct Hd as [Ha Hl].
  apply orb_false_iff in Hm. destruct Hm as [Hva Hvl].
  rewrite mem_app, (IH Hl Hvl). simpl.
  apply negb_true_iff in Ha. rewrite Ha. simpl.
  rewrite Z.eqb_sym, Hva. reflexivity.
Qed.

Lemma add_item_distinct l v : distinct l = true -> distinct (add_item l v) = true.
Proof.
  intros Hd. unfold add_item. destruct (mem v l) eqn:E; [exact Hd|].
  now apply distinct_snoc.
Qed.

Lemma fold_add_distinct vs : forall l, distinct l = true ->
  distinct (fold_left add_item vs l) = true.
Proof.
  induction vs as [|v vs IH]; simpl; intros l Hd; [exact Hd|].
  apply IH. now apply add_item_distinct.
Qed.

(** [new Set(iterable)]. *)
Definition new_Set (vs : list Z) : NumSet :=
  {| items := fold_left add_item vs [];
     items_distinct := fold_add_distinct vs [] eq_refl |}.

Definition has (s : NumSet) (v : Z) : bool := mem v (items s).
Definition size (s : NumSet) : nat := List.length (items s).
Definition Array_from (s : NumSet) : list Z := items s.

Lemma NumSet_eq (a b : NumSet) : items a = items b -> a = b.
Proof.
  destruct a as [ia pa], b as [ib pb]. simpl. intros ->.
  f_equal. apply UIP_dec. apply bool_dec.
Qed.

Lemma fold_add_app vs : forall l, distinct (l ++ vs) = true ->
  fold_left add_item vs l = l ++ vs.
Proof.
  induction vs as [|v vs IH]; simpl; intros l Hd; [now rewrite app_nil_r|].
  assert (Hv : mem v l = false).
  { clear IH. induction l as [|a l IHl]; [reflexivity|].
    simpl in Hd. apply andb_true_iff in Hd. destruct Hd as [Ha Hl].
    simpl. rewrite (IHl Hl), orb_false_r.
    apply negb_true_iff in Ha. rewrite mem_app in Ha.
    apply orb_false_iff in Ha. destruct Ha as [_ Ha]. simpl in Ha.
    apply orb_false_iff in Ha. destruct Ha as [Ha _].
    now rewrite Z.eqb_sym. }
  unfold add_item at 2. rewrite Hv.
  rewrite IH; rewrite <- app_assoc; [reflexivity | exact Hd].
Qed.

(** [new Set(Array.from(s))] is [s]. *)
Lemma new_Set_Array_from (s : NumSet) : new_Set (Array_from s) = s.
Proof.
  apply NumSet_eq. simpl. unfold Array_from.
  apply (fold_add_app (items s) []). exact (items_distinct s).
Qed.

(** ** The editor's state *)

(** The React state cells captured by [snapshot()]. *)
Record Scene := mkScene {
  nodes : list MindNode;
  edges : list Link;
  pan : Point;
  scale : Q;
  selectedId : option Z;
  selectedIds : NumSet;
  selectedEdgeIds : NumSet
}.

Record Snapshot := mkSnapshot {
  s_nodes : list MindNode;
  s_edges : list Link;
  s_pan : Point;
  s_scale : Q;
  s_selectedId : option Z;
  s_selectedIds : list Z;
  s_selectedEdgeIds : list Z
}.

(** [svg.getBoundingClientRect()]. *)
Record Rect := mkRect { r_left : Q; r_top : Q; r_width : Q; r_height : Q }.

Record Pinch := mkPinch {
  pinch_d : Q; pinch_scale : Q; pinch_panX : Q; pinch_panY : Q;
  pinch_cx : Q; pinch_cy : Q
}.

Record Marquee := mkMarquee {
  m_active : bool; m_x1 : Q; m_y1 : Q; m_x2 : Q; m_y2 : Q
}.

Inductive Phase := idle | pending | active.

Record Linking := mkLinking {
  phase : Phase; sourceId : option Z;
  link_x : Q; link_y : Q; startX : Q; startY : Q
}.

(** The refs of the pointer gestures. [activeTouches] is a [Map] in
    insertion order. *)
Record Gesture := mkGesture {
  draggingNodeId : option Z;
  dragOffset : Point;
  somethingMoved : bool;
  groupDragging : bool;
  groupStart : Point;
  groupStartPositions : list (Z * Point);
  panning : bool;
  panStart : Point;
  panAtStart : Point;
  activeTouches : list (Z * Point);
  pinchStart : option Pinch
}.

(** A pending [setTimeout(() => bringBoxIntoView(cx, cy, w, h), 0)]: the
    callback keeps the [pan] and [scale] of the render that queued it. *)
Record Timer := mkTimer {
  t_pan : Point; t_scale : Q; t_cx : Q; t_cy : Q; t_w : Q; t_h : Q
}.

(** State cells, refs, the drawing surface ([svgRef.current], absent before
    mounting) and the queued timers. The undo and redo stacks have their top
    (the array's last element) at the head. The context menu and the text
    of the inline input are widget state and are left out. *)
Record AppState := mkApp {
  scene : Scene;
  marquee : Marquee;
  editingId : option Z;
  linking : Linking;
  shiftTabPath : option (list Z);
  shiftTabIndex : Z;
  gesture : Gesture;
  freshTyping : bool;
  undoStack : list Snapshot;
  redoStack : list Snapshot;
  svg : option Rect;
  timers : list Timer
}.

(** *** Field updates *)

Definition with_scene (f : Scene -> Scene) (p : AppState) : AppState :=
  mkApp (f (scene p)) (marquee p) (editingId p) (linking p) (shiftTabPath p)
        (shiftTabIndex p) (gesture p) (freshTyping p) (undoStack p)
        (redoStack p) (svg p) (timers p).

Definition setMarquee (f : Marquee -> Marquee) (p : AppState) : AppState :=
  mkApp (scene p) (f (marquee p)) (editingId p) (linking p) (shiftTabPath p)
        (shiftTabIndex p) (gesture p) (freshTyping p) (undoStack p)
        (redoStack p) (svg p) (timers p).

Definition setEditingId (v : option Z) (p : AppState) : AppState :=
  mkApp (scene p) (marquee p) v (linking p) (shiftTabPath p)
        (shiftTabIndex p) (gesture p) (freshTyping p) (undoStack p)
        (redoStack p) (svg p) (timers p).

Definition setLinking (f : Linking -> Linking) (p : AppState) : AppState :=
  mkApp (scene p) (marquee p) (editingId p) (f (linking p)) (shiftTabPath p)
        (shiftTabIndex p) (gesture p) (freshTyping p) (undoStack p)
        (redoStack p) (svg p) (timers p).

Definition set_shiftTab (path : option (list Z)) (idx : Z) (p : AppState)
  : AppState :=
  mkApp (scene p) (marquee p) (editingId p) (linking p) path idx (gesture p)
        (freshTyping p) (undoStack p) (redoStack p) (svg p) (timers p).

Definition with_gesture (f : Gesture -> Gesture) (p : AppState) : AppState :=
  mkApp (scene p) (marquee p) (editingId p) (linking p) (shiftTabPath p)
        (shiftTabIndex p) (f (gesture p)) (freshTyping p) (undoStack p)
        (redoStack p) (svg p) (timers p).

Definition set_freshTyping (b : bool) (p : AppState) : AppState :=
  mkApp (scene p) (marquee p) (editingId p) (linking p) (shiftTabPath p)
        (shiftTabIndex p) (gesture p) b (undoStack p) (redoStack p) (svg p)
        (timers p).

Definition set_stacks (u r : list Snapshot) (p : AppState) : AppState :=
  mkApp (scene p) (marquee p) (editingId p) (linking p) (shiftTabPath p)
        (shiftTabIndex p) (gesture p) (freshTyping p) u r (svg p) (timers p).

Definition set_timers (ts : list Timer) (p : AppState) : AppState :=
  mkApp (scene p) (marquee p) (editingId p) (linking p) (shiftTabPath p)
        (shiftTabIndex p) (gesture p) (freshTyping p) (undoStack p)
        (redoStack p) (svg p) ts.

(** The state setters; the functional form [setX(prev => ...)] when the
    source uses it. *)
Definition setNodes (f : list MindNode -> list MindNode) : AppState -> AppState :=
  with_scene (fun c => mkScene (f (nodes c)) (edges c) (pan c) (scale c)
                         (selectedId c) (selectedIds c) (selectedEdgeIds c)).

Definition setEdges (f : list Link -> list Link) : AppState -> AppState :=
  with_scene (fun c => mkScene (nodes c) (f (edges c)) (pan c) (scale c)
                         (selectedId c) (selectedIds c) (selectedEdgeIds c)).

Definition setPan (f : Point -> Point) : AppState -> AppState :=
  with_scene (fun c => mkScene (nodes c) (edges c) (f (pan c)) (scale c)
                         (selectedId c) (selectedIds c) (selectedEdgeIds c)).

Definition setScale (v : Q) : AppState -> AppState :=
  with_scene (fun c => mkScene (nodes c) (edges c) (pan c) v
                         (selectedId c) (selectedIds c) (selectedEdgeIds c)).

Definition setSelectedId (v : option Z) : AppState -> AppState :=
  with_scene (fun c => mkScene (nodes c) (edges c) (pan c) (scale c)
                         v (selectedIds c) (selectedEdgeIds c)).

Definition setSelectedIds (v : NumSet) : AppState -> AppState :=
  with_scene (fun c => mkScene (nodes c) (edges c) (pan c) (scale c)
                         (selectedId c) v (selectedEdgeIds c)).

Definition setSelectedEdgeIds (f : NumSet -> NumSet) : AppState -> AppState :=
  with_scene (fun c => mkScene (nodes c) (edges c) (pan c) (scale c)
                         (selectedId c) (selectedIds c) (f (selectedEdgeIds c))).

(** How a handler ends: it returns, it throws (the effects before the throw
    stay), it never returns, or it stores [undefined] where the source
    declares a number, which the typed state cannot hold. *)
Inductive run (A : Type) :=
| Returns (a : A)
| Throws (a : A)
| Hangs
| Untyped.
Arguments Returns {A} a.
Arguments Throws {A} a.
Arguments Hangs {A}.
Arguments Untyped {A}.

Record KeyEvent := mkKey {
  key : jsstring;
  shiftKey : bool;
  ctrlKey : bool;
  metaKey : bool;
  altKey : bool;
  (** [document.activeElement] is an input, a text area or editable. *)
  focusInField : bool
}.

Record PointerEvent := mkPointer {
  pointerId : Z;
  clientX : Q;
  clientY : Q;
  pointerShift : bool
}.

Record WheelEvent := mkWheel {
  wheelX : Q;
  wheelY : Q;
  deltaX : Q;
  deltaY : Q;
  wheelShift : bool
}.

Fixpoint str_eqb (a b : jsstring) : bool :=
  match a, b with
  | [], [] => true
  | x :: a', y :: b' => (x =? y)%N && str_eqb a' b'
  | _, _ => false
  end.

Definition key_is (e : KeyEvent) (name : string) : bool :=
  str_eqb (key e) (str name).

(** What the host provides and the model cannot compute on exact numbers:
    the transcendental functions of [Math], the coercions [Number(v)] and
    [String(v)] away from the cases written out below ([Id_of] is
    [Number(v)] where the result is kept as an identifier and is not a
    whole number), and [JSON.parse] ([None] when it throws). *)
Record Host := mkHost {
  Math_exp : Q -> Q;
  Math_cos : Q -> Q;
  Math_sin : Q -> Q;
  Math_sqrt : Q -> Q;
  Math_hypot : Q -> Q -> Q;
  Math_atan2 : Q -> Q -> Q;
  Math_PI : Q;
  Number_of : option json -> Q;
  Id_of : option json -> Z;
  String_of : json -> jsstring;
  JSON_parse : jsstring -> option json
}.

Definition node_with_xy (n : MindNode) (x y : Q) : MindNode :=
  mkNode (n_id n) (n_label n) x y (n_w n) (n_h n) (n_strokeColor n)
         (n_fillColor n) (n_bold n).

Definition node_with_wh (n : MindNode) (w h : Q) : MindNode :=
  mkNode (n_id n) (n_label n) (n_x n) (n_y n) w h (n_strokeColor n)
         (n_fillColor n) (n_bold n).

Definition node_with_label (n : MindNode) (l : jsstring) : MindNode :=
  mkNode (n_id n) l (n_x n) (n_y n) (n_w n) (n_h n) (n_strokeColor n)
         (n_fillColor n) (n_bold n).

Definition link_with_label (e : Link) (l : option jsstring) : Link :=
  mkLink (e_id e) (e_source e) (e_target e) l (e_dashed e).

(** [array.includes(v)] and [array.indexOf(v)] on identifiers. *)
Definition includes (l : list Z) (v : Z) : bool := mem v l.

Fixpoint indexOf (l : list Z) (v : Z) : Z :=
  match l with
  | [] => -1
  | a :: r => if (a =? v)%Z then 0%Z
              else let i := indexOf r v in if (i <? 0)%Z then (-1)%Z else (i + 1)%Z
  end.

(** [array[i]]: [None] is [undefined]. *)
Definition at_index {A} (l : list A) (i : Z) : option A :=
  if (i <? 0)%Z then None else nth_error l (Z.to_nat i).

(** [array.sort((a, b) => a - b)] on identifiers. *)
Fixpoint insert_asc (v : Z) (l : list Z) : list Z :=
  match l with
  | [] => [v]
  | a :: r => if (v <? a)%Z then v :: l else a :: insert_asc v r
  end.

Definition sort_asc (l : list Z) : list Z :=
  fold_left (fun acc v => insert_asc v acc) l [].

(** [a < b] on numbers. *)
Definition Qltb (a b : Q) : bool := negb (Qle_bool b a).

Definition default_stroke : json := JStr (str "#333").

Definition opt_is_some {A} (o : option A) : bool :=
  match o with Some _ => true | None => false end.

Definition opt_Z_eqb (o : option Z) (v : Z) : bool :=
  match o with Some a => (a =? v)%Z | None => false end.

(** [toScreen] and [bringBoxIntoView] for a render whose [pan] and [scale]
    are [pn] and [sc]. *)
Definition toScreenAt (pn : Point) (sc : Q) (wx wy : Q) : Point :=
  mkPoint (p_x pn + wx * sc) (p_y pn + wy * sc).

Definition bringBoxAt (pn : Point) (sc : Q) (cx cy w h margin : Q)
           (p : AppState) : AppState :=
  match svg p with
  | None => p
  | Some rect =>
      let left := toScreenAt pn sc (cx - w / 2) (cy - h / 2) in
      let right := toScreenAt pn sc (cx + w / 2) (cy + h / 2) in
      let newPanX := p_x pn in
      let newPanY := p_y pn in
      let newPanX := if Qltb (p_x left) margin
                     then newPanX + (margin - p_x left) else newPanX in
      let newPanX := if Qltb (r_width rect - margin) (p_x right)
                     then newPanX - (p_x right - (r_width rect - margin))
                     else newPanX in
      let newPanY := if Qltb (p_y left) margin
                     then newPanY + (margin - p_y left) else newPanY in
      let newPanY := if Qltb (r_height rect - margin) (p_y right)
                     then newPanY - (p_y right - (r_height rect - margin))
                     else newPanY in
      if negb (Qeq_bool newPanX (p_x pn)) || negb (Qeq_bool newPanY (p_y pn))
      then setPan (fun _ => mkPoint newPanX newPanY) p
      else p
  end.

(** A queued timer fires; all queued timers fire, in the order queued. *)
Definition run_timer (t : Timer) (p : AppState) : AppState :=
  bringBoxAt (t_pan t) (t_scale t) (t_cx t) (t_cy t) (t_w t) (t_h t) 24 p.

Definition flush (p : AppState) : AppState :=
  fold_left (fun q t => run_timer t q) (timers p) (set_timers [] p).

Section Engine.

Variable host : Host.

Definition GOLDEN_ANGLE : Q := Math_PI host * (3 - Math_sqrt host 5).

Definition distPointToSeg (px py x1 y1 x2 y2 : Q) : Q :=
  let vx := x2 - x1 in
  let vy := y2 - y1 in
  let wx := px - x1 in
  let wy := py - y1 in
  let len2 := let v := vx * vx + vy * vy in
              if Qeq_bool v 0 then 1 # 1000000 else v in
  let t := (wx * vx + wy * vy) / len2 in
  let t := Math_max 0 (Math_min 1 t) in
  let cx := x1 + t * vx in
  let cy := y1 + t * vy in
  Math_hypot host (px - cx) (py - cy).

Definition rectRadius (n : MindNode) : Q := Math_max (n_w n) (n_h n) / 2.

(** [JSON.parse(JSON.stringify(sn))], a deep copy. On the data of the
    model (exact numbers, strings, JSON values, options for what may be
    absent) the round trip gives back an equal value, and nothing here is
    mutated in place, so the copy is the snapshot itself. *)
Definition cloneSnapshot (sn : Snapshot) : Snapshot := sn.

(** *** The functions of one render

    [r] is the state the render was made from: the handlers read the
    state cells from [r], read and write the refs in the pending state
    [p], and queue their state updates on [p]. *)
Section Render.

Variable r : AppState.

Definition findNode (v : Z) : option MindNode :=
  find (fun n => (n_id n =? v)%Z) (nodes (scene r)).

Definition toWorld (sv : option Rect) (clientX clientY : Q) : Point :=
  match sv with
  | None => mkPoint 0 0
  | Some rect =>
      mkPoint ((clientX - r_left rect - p_x (pan (scene r))) / scale (scene r))
              ((clientY - r_top rect - p_y (pan (scene r))) / scale (scene r))
  end.

Definition toScreen (wx wy : Q) : Point :=
  toScreenAt (pan (scene r)) (scale (scene r)) wx wy.

Definition bringBoxIntoView (cx cy w h margin : Q) (p : AppState) : AppState :=
  bringBoxAt (pan (scene r)) (scale (scene r)) cx cy w h margin p.

(** [setTimeout(() => bringBoxIntoView(cx, cy, w, h), 0)]. *)
Definition later_bringBoxIntoView (cx cy w h : Q) (p : AppState) : AppState :=
  set_timers (timers p ++ [mkTimer (pan (scene r)) (scale (scene r)) cx cy w h]) p.

Definition selectOnly (v : Z) (p : AppState) : AppState :=
  let p := set_shiftTab None 0 p in
  let p := setSelectedId (Some v) p in
  let p := setSelectedIds (new_Set [v]) p in
  let p := setSelectedEdgeIds (fun _ => new_Set []) p in
  set_freshTyping true p.

Definition clearSelection (p : AppState) : AppState :=
  let p := setSelectedId None p in
  let p := setSelectedIds (new_Set []) p in
  let p := setSelectedEdgeIds (fun _ => new_Set []) p in
  set_freshTyping true p.

Definition selectFromArray (ids : list Z) (p : AppState) : AppState :=
  let p := setSelectedId (hd_error ids) p in
  let p := setSelectedIds (new_Set ids) p in
  let p := setSelectedEdgeIds (fun _ => new_Set []) p in
  set_freshTyping true p.

(** [parentId] is optional; [parentId && ...] is false for [0] too. *)
Definition isPositionFree (x y : Q) (parentId : option Z) : bool :=
  let NODE_PADDING := 8 in
  let EDGE_PADDING := 6 in
  forallb
    (fun n =>
       if opt_Z_eqb parentId (n_id n) then true
       else
         let d := Math_hypot host (n_x n - x) (n_y n - y) in
         let newR := Math_max BASE_W BASE_H / 2 in
         negb (Qltb d (rectRadius n + newR + NODE_PADDING)))
    (nodes (scene r))
  &&
  forallb
    (fun e =>
       if match parentId with
          | Some pid => negb (pid =? 0)%Z
                        && ((e_source e =? pid)%Z || (e_target e =? pid)%Z)
          | None => false
          end
       then true
       else
         match findNode (e_source e), findNode (e_target e) with
         | Some s, Some t =>
             let d := distPointToSeg x y (n_x s) (n_y s) (n_x t) (n_y t) in
             negb (Qltb d (Math_max BASE_W BASE_H / 2 + EDGE_PADDING))
         | _, _ => true
         end)
    (edges (scene r)).

Definition connects (a b : Z) (ed : Link) : bool :=
  ((e_source ed =? a)%Z && (e_target ed =? b)%Z)
  || ((e_source ed =? b)%Z && (e_target ed =? a)%Z).

(** [now] is the value of [Date.now()]. *)
Definition ensureEdge (a b : Z) (now : Z) (p : AppState) : AppState :=
  if (a =? b)%Z then p
  else
    let exists_ := existsb (connects a b) (edges (scene r)) in
    if negb exists_
    then setEdges (fun es => es ++ [mkLink now a b None None]) p
    else p.

Definition getParentId (childId : Z) : option Z :=
  match find (fun ed => (e_target ed =? childId)%Z) (edges (scene r)) with
  | Some e => Some (e_source e)
  | None => None
  end.

Definition getChildrenOf (parentId : Z) : list Z :=
  sort_asc (map e_target
                (filter (fun e => (e_source e =? parentId)%Z) (edges (scene r)))).

(** The [while] loop of [buildRootPath] with [fuel] turns left; [up]
    holds the ids pushed so far, the last one first, which is the
    reversed array the function returns. *)
Fixpoint climb (fuel : nat) (cur : Z) (up : list Z) : option (list Z) :=
  match fuel with
  | O => None
  | S k =>
      match getParentId cur with
      | None => Some (cur :: up)
      | Some parent => climb k parent (cur :: up)
      end
  end.

(** [None]: the loop does not end (the parent chain runs into a cycle).
    A chain without a cycle takes each edge at most once, so one turn
    more than there are edges is enough for every run that ends
    ([buildRootPath_fuel_enough] below). *)
Definition buildRootPath (startId : Z) : option (list Z) :=
  climb (S (List.length (edges (scene r)))) startId [].

Definition resizeNodeForLabel (n : MindNode) : MindNode :=
  let baseFont := clamp (Math_round (n_h n * (35 # 100))) 12 20 in
  let L := layoutLabel (n_label n) baseFont BASE_W in
  node_with_wh n (width L) (height L).

Definition isPointInNode (n : MindNode) (x y : Q) : bool :=
  Qle_bool (Qabs (x - n_x n)) (n_w n / 2)
  && Qle_bool (Qabs (y - n_y n)) (n_h n / 2).

(** [excludeId && ...] is false for [0] too. *)
Definition findNodeAt (x y : Q) (excludeId : option Z) : option Z :=
  match find (fun n =>
                negb (match excludeId with
                      | Some ex => negb (ex =? 0)%Z && (n_id n =? ex)%Z
                      | None => false
                      end)
                && isPointInNode n x y) (nodes (scene r)) with
  | Some n => Some (n_id n)
  | None => None
  end.

(** *** History *)

Definition snapshot : Snapshot :=
  mkSnapshot (nodes (scene r)) (edges (scene r)) (pan (scene r))
             (scale (scene r)) (selectedId (scene r))
             (Array_from (selectedIds (scene r)))
             (Array_from (selectedEdgeIds (scene r))).

Definition pushHistory (p : AppState) : AppState :=
  set_stacks (cloneSnapshot snapshot :: undoStack p) [] p.

Definition restore (sn : Snapshot) (p : AppState) : AppState :=
  let p := setNodes (fun _ => s_nodes sn) p in
  let p := setEdges (fun _ => s_edges sn) p in
  let p := setPan (fun _ => s_pan sn) p in
  let p := setScale (s_scale sn) p in
  let p := setSelectedId (s_selectedId sn) p in
  let p := setSelectedIds (new_Set (s_selectedIds sn)) p in
  setSelectedEdgeIds (fun _ => new_Set (s_selectedEdgeIds sn)) p.

Definition undo (p : AppState) : AppState :=
  match undoStack p with
  | [] => p
  | sn :: rest =>
      let p := set_stacks rest (cloneSnapshot snapshot :: redoStack p) p in
      restore sn p
  end.

Definition redo (p : AppState) : AppState :=
  match redoStack p with
  | [] => p
  | sn :: rest =>
      let p := set_stacks (cloneSnapshot snapshot :: undoStack p) rest p in
      restore sn p
  end.

(** *** Adding nodes *)

(** [nodes.length ? Math.max(...nodes.map(n => n.id)) + 1 : 1]. *)
Definition nextId : Z :=
  match map n_id (nodes (scene r)) with
  | [] => 1%Z
  | a :: rest => (fold_left Z.max rest a + 1)%Z
  end.

(** The search loops of [addStandalone], [k] turns left at turn [i]:
    the first free point on the spiral around [(ox, oy)], if any. The
    radius grows by [step] after every sixth turn. *)
Fixpoint outward (k : nat) (i : Z) (ox oy angle radius step : Q)
  : option Point :=
  match k with
  | O => None
  | S k' =>
      let nx := ox + Math_cos host angle * radius in
      let ny := oy + Math_sin host angle * radius in
      if isPositionFree nx ny None then Some (mkPoint nx ny)
      else outward k' (i + 1)%Z ox oy (angle + GOLDEN_ANGLE)
                   (if (i mod 6 =? 5)%Z then radius + step else radius) step
  end.

Definition blankNode (v : Z) (x y : Q) (stroke : json) (fill : option json)
  : MindNode :=
  mkNode v [] x y BASE_W BASE_H stroke fill false.

Definition addStandalone (at_ : option Point) (p : AppState) : Z * AppState :=
  let p := pushHistory p in
  let newId := nextId in
  match at_ with
  | Some a =>
      let xy :=
        if isPositionFree (p_x a) (p_y a) None then a
        else match outward 60 0 (p_x a) (p_y a) 0 12 12 with
             | Some q => q
             | None => a
             end in
      let p := setNodes (fun ns => ns ++ [blankNode newId (p_x xy) (p_y xy)
                                            default_stroke None]) p in
      (newId, later_bringBoxIntoView (p_x xy) (p_y xy) BASE_W BASE_H p)
  | None =>
      match svg p with
      | None =>
          (newId,
           setNodes (fun ns => ns ++ [blankNode newId 0 0 default_stroke None]) p)
      | Some rect =>
          let wx := (r_width rect / 2 - p_x (pan (scene r))) / scale (scene r) in
          let wy := (r_height rect / 2 - p_y (pan (scene r))) / scale (scene r) in
          let xy := match outward 120 0 wx wy 0 0 24 with
                    | Some q => q
                    | None => mkPoint wx wy
                    end in
          let p := setNodes (fun ns => ns ++ [blankNode newId (p_x xy) (p_y xy)
                                                default_stroke None]) p in
          (newId, later_bringBoxIntoView (p_x xy) (p_y xy) BASE_W BASE_H p)
      end
  end.

(** The search loop of [addChild], [k] turns left at turn [i]: the
    first free point, or the last point tried. *)
Fixpoint aroundParent (k : nat) (i : Z) (parent : MindNode)
         (parentId : Z) (angle radius : Q) (xy : Point) : Point :=
  match k with
  | O => xy
  | S k' =>
      let x := n_x parent + Math_cos host angle * radius in
      let y := n_y parent + Math_sin host angle * radius in
      if isPositionFree x y (Some parentId) then mkPoint x y
      else aroundParent k' (i + 1)%Z parent parentId
                        (angle + GOLDEN_ANGLE)
                        (if (i mod 8 =? 7)%Z then radius + 24 else radius)
                        (mkPoint x y)
  end.

Definition addChild (parentId : Z) (now : Z) (p : AppState) : Z * AppState :=
  match findNode parentId with
  | None => (parentId, p)
  | Some parent =>
      let p := pushHistory p in
      let newId := nextId in
      let angle :=
        inject_Z (Z.of_nat (List.length (getChildrenOf parentId)))
        * GOLDEN_ANGLE in
      let xy := aroundParent 96 0 parent parentId angle CHILD_RADIUS
                             (mkPoint (n_x parent) (n_y parent)) in
      let child := blankNode newId (p_x xy) (p_y xy) (n_strokeColor parent)
                             (n_fillColor parent) in
      let p := setNodes (fun ns => ns ++ [child]) p in
      let p := setEdges (fun es => es ++ [mkLink now parentId newId None None]) p in
      (newId, later_bringBoxIntoView (p_x xy) (p_y xy) BASE_W BASE_H p)
  end.

Definition addSiblingOf (nodeId : Z) (now : Z) (p : AppState) : Z * AppState :=
  match getParentId nodeId with
  | Some parentId => addChild parentId now p
  | None => addStandalone None p
  end.

(** *** Removing *)

Definition removeEdges (ids : list Z) (p : AppState) : AppState :=
  match ids with
  | [] => p
  | _ =>
      let p := pushHistory p in
      let del := new_Set ids in
      let p := setEdges (filter (fun e => negb (has del (e_id e)))) p in
      setSelectedEdgeIds (fun _ => new_Set []) p
  end.

Definition removeNodes (ids : list Z) (p : AppState) : AppState :=
  match ids with
  | [] => p
  | _ =>
      let p := pushHistory p in
      let del := new_Set ids in
      let nextSelection :=
        match ids with
        | [victim] =>
            match getParentId victim with
            | Some parent => if negb (has del parent) then Some parent else None
            | None => None
            end
        | _ => None
        end in
      let p := setNodes (filter (fun n => negb (has del (n_id n)))) p in
      let p := setEdges (filter (fun e => negb (has del (e_source e))
                                          && negb (has del (e_target e)))) p in
      match nextSelection with
      | Some sel =>
          let p := setSelectedId (Some sel) p in
          let p := setSelectedIds (new_Set [sel]) p in
          let p := setSelectedEdgeIds (fun _ => new_Set []) p in
          match findNode sel with
          | Some n => later_bringBoxIntoView (n_x n) (n_y n) (n_w n) (n_h n) p
          | None => p
          end
      | None => clearSelection p
      end
  end.

(** *** Keyboard *)

Definition growNode (n : MindNode) : MindNode :=
  node_with_wh n (Math_min 420 (Math_round (n_w n * (12 # 10))))
                 (Math_min 240 (Math_round (n_h n * (115 # 100)))).

Definition shrinkNode (n : MindNode) : MindNode :=
  node_with_wh n (Math_max 80 (Math_round (n_w n / (12 # 10))))
                 (Math_max 48 (Math_round (n_h n / (115 # 100)))).

(** The body of the Shift with [+] or [=] branch, and of the Shift
    with [-] or [_] branch. *)
Definition resizeSelected (f : MindNode -> MindNode) (p : AppState) : AppState :=
  let ids := Array_from (selectedIds (scene r)) in
  match ids with
  | [] => p
  | _ =>
      let p := pushHistory p in
      setNodes (map (fun n => if includes ids (n_id n) then f n else n)) p
  end.

Definition key_grow : AppState -> AppState := resizeSelected growNode.
Definition key_shrink : AppState -> AppState := resizeSelected shrinkNode.

(** The arrow-key branch, for the direction [(dx, dy)]. [best] is the
    id and the score of the best candidate so far. *)
Definition key_arrow (sel : Z) (dx dy : Q) (p : AppState) : run AppState :=
  match findNode sel with
  | None => Returns p
  | Some cur =>
      let len_ := let l := Math_hypot host dx dy in
                  if Qeq_bool l 0 then 1 else l in
      let ux := dx / len_ in
      let uy := dy / len_ in
      let best :=
        fold_left
          (fun (best : option (Z * Q)) n =>
             if (n_id n =? sel)%Z then best
             else
               let vx := n_x n - n_x cur in
               let vy := n_y n - n_y cur in
               let dist := Math_hypot host vx vy in
               if Qeq_bool dist 0 then best
               else
                 let dot := vx * ux + vy * uy in
                 if Qle_bool dot 0 then best
                 else
                   let cos := dot / dist in
                   let score := cos + (1 # 10000) / dist in
                   match best with
                   | None => Some (n_id n, score)
                   | Some (_, bs) =>
                       if Qltb bs score then Some (n_id n, score) else best
                   end)
          (nodes (scene r)) None in
      match best with
      | None => Returns p
      | Some (bid, _) =>
          let p := selectOnly bid p in
          match findNode bid with
          | Some n => Returns (bringBoxIntoView (n_x n) (n_y n) (n_w n) (n_h n) 24 p)
          | None => Throws p
          end
      end
  end.

Definition key_enter (sel : Z) (now : Z) (p : AppState) : AppState :=
  let '(newId, p) := addChild sel now p in
  let p := selectOnly newId p in
  set_freshTyping true p.

Definition key_shiftEnter (sel : Z) (now : Z) (p : AppState) : AppState :=
  let '(newId, p) := addSiblingOf sel now p in
  let p := selectOnly newId p in
  set_freshTyping true p.

Definition key_shiftBackspace (p : AppState) : AppState :=
  if (0 <? size (selectedIds (scene r)))%nat
  then removeNodes (Array_from (selectedIds (scene r))) p
  else if (0 <? size (selectedEdgeIds (scene r)))%nat
       then removeEdges (Array_from (selectedEdgeIds (scene r))) p
       else p.

Definition key_backspace (p : AppState) : AppState :=
  let ids := Array_from (selectedIds (scene r)) in
  match ids with
  | [] => p
  | [v] =>
      let p := pushHistory p in
      setNodes
        (map (fun n =>
                if negb (n_id n =? v)%Z then n
                else
                  let next := firstn (List.length (n_label n) - 1) (n_label n) in
                  resizeNodeForLabel (node_with_label n next))) p
  | _ => removeNodes ids p
  end.

(** The Shift+Tab branch from [const path = shiftTabPathRef.current!]
    on, with the path and the index read from the refs. *)
Definition walkPath (path : list Z) (idx : Z) (p : AppState) : run AppState :=
  let move (idx' : Z) : run AppState :=
    let p := set_shiftTab (shiftTabPath p) idx' p in
    match at_index path idx' with
    | None => Untyped
    | Some nextId =>
        let p := selectOnly nextId p in
        match findNode nextId with
        | Some n => Returns (bringBoxIntoView (n_x n) (n_y n) (n_w n) (n_h n) 24 p)
        | None => Returns p
        end
    end in
  if (0 <? idx)%Z then move (idx - 1)%Z
  else if (idx <? Z.of_nat (List.length path) - 1)%Z then move (idx + 1)%Z
       else Returns p.

Definition key_shiftTab (sel : Z) (p : AppState) : run AppState :=
  let fresh :=
    match buildRootPath sel with
    | None => Hangs
    | Some path =>
        let last := (Z.of_nat (List.length path) - 1)%Z in
        walkPath path last (set_shiftTab (Some path) last p)
    end in
  match shiftTabPath p with
  | None => fresh
  | Some path =>
      if (indexOf path sel =? -1)%Z then fresh
      else walkPath path (shiftTabIndex p) p
  end.

(** [rad % (2 * Math.PI)], made non-negative. *)
Definition normAng (rad : Q) : Q :=
  let twoPi := Math_PI host * 2 in
  let a := rad - twoPi * inject_Z (Z.quot (Qnum (rad / twoPi)) (QDen (rad / twoPi))) in
  if Qltb a 0 then a + twoPi else a.

(** [withAngle.sort((p, q) => q.a - p.a)]: by descending angle, equal
    angles in their former order. *)
Fixpoint insert_desc (v : Z * Q) (l : list (Z * Q)) : list (Z * Q) :=
  match l with
  | [] => [v]
  | a :: rest => if Qltb (snd a) (snd v) then v :: l else a :: insert_desc v rest
  end.

Definition getSiblingsClockwise (currentId : Z) : outcome (list Z) :=
  match getParentId currentId with
  | None => Ok []
  | Some parentId =>
      match findNode parentId with
      | None => Ok []
      | Some parent =>
          let siblings := getChildrenOf parentId in
          withAngle <-
            fold_right
              (fun v acc =>
                 rest <- acc ;;
                 match findNode v with
                 | None => Throw
                 | Some c =>
                     let theta := Math_atan2 host (n_y c - n_y parent)
                                             (n_x c - n_x parent) in
                     Ok ((v, normAng theta) :: rest)
                 end)
              (Ok []) siblings ;;
          Ok (map fst (fold_left (fun acc v => insert_desc v acc) withAngle []))
      end
  end.

Definition key_tab (sel : Z) (p : AppState) : run AppState :=
  match getSiblingsClockwise sel with
  | Throw => Throws p
  | Ok order =>
      if (List.length order <=? 1)%nat then Returns p
      else
        let idx := indexOf order sel in
        match at_index order (Z.rem (idx + 1) (Z.of_nat (List.length order))) with
        | None => Untyped
        | Some nextId =>
            let p := selectOnly nextId p in
            match findNode nextId with
            | Some n => Returns (bringBoxIntoView (n_x n) (n_y n) (n_w n) (n_h n) 24 p)
            | None => Returns p
            end
        end
  end.

Definition key_altTab (sel : Z) (p : AppState) : AppState :=
  match getChildrenOf sel with
  | [] => p
  | nextId :: _ =>
      let p := selectOnly nextId p in
      match findNode nextId with
      | Some n => bringBoxIntoView (n_x n) (n_y n) (n_w n) (n_h n) 24 p
      | None => p
      end
  end.

(** The typing branch, for the one-character key [char]. *)
Definition key_char (char : jsstring) (p : AppState) : AppState :=
  if (0 <? size (selectedEdgeIds (scene r)))%nat then
    let p := pushHistory p in
    let replaceAll := freshTyping p in
    let p :=
      setEdges
        (map (fun ed =>
                if negb (has (selectedEdgeIds (scene r)) (e_id ed)) then ed
                else
                  let cur := match e_label ed with Some l => l | None => [] end in
                  let next := if replaceAll then char else cur ++ char in
                  link_with_label ed (Some next))) p in
    set_freshTyping false p
  else if (1 <=? size (selectedIds (scene r)))%nat then
    let p := pushHistory p in
    let ids := Array_from (selectedIds (scene r)) in
    let replaceAll := freshTyping p in
    let p :=
      setNodes
        (map (fun n =>
                if negb (includes ids (n_id n)) then n
                else
                  let nextText := if replaceAll then char else n_label n ++ char in
                  resizeNodeForLabel (node_with_label n nextText))) p in
    set_freshTyping false p
  else p.

(** The [keydown] listener; [now] is what [Date.now()] returns during
    the call. *)
Definition handler (e : KeyEvent) (now : Z) (p : AppState) : run AppState :=
  let one := (size (selectedIds (scene r)) =? 1)%nat in
  if opt_is_some (editingId r) then Returns p
  else if focusInField e then Returns p
  else if (ctrlKey e || metaKey e) && negb (shiftKey e)
          && (key_is e "z" || key_is e "Z")
  then Returns (undo p)
  else if (ctrlKey e || metaKey e)
          && (key_is e "y" || (shiftKey e && (key_is e "Z" || key_is e "z")))
  then Returns (redo p)
  else if shiftKey e && (key_is e "+" || key_is e "=") then Returns (key_grow p)
  else if shiftKey e && (key_is e "-" || key_is e "_") then Returns (key_shrink p)
  else
    match
      (if key_is e "ArrowUp" || key_is e "ArrowDown"
          || key_is e "ArrowLeft" || key_is e "ArrowRight"
       then selectedId (scene r) else None)
    with
    | Some sel =>
        if key_is e "ArrowUp" then key_arrow sel 0 (-1) p
        else if key_is e "ArrowDown" then key_arrow sel 0 1 p
        else if key_is e "ArrowLeft" then key_arrow sel (-1) 0 p
        else key_arrow sel 1 0 p
    | None =>
        match selectedId (scene r) with
        | Some sel =>
            if key_is e "Enter" && one && negb (shiftKey e)
            then Returns (key_enter sel now p)
            else if key_is e "Enter" && shiftKey e && one
            then Returns (key_shiftEnter sel now p)
            else if key_is e "Escape" then Returns (clearSelection p)
            else if key_is e "Backspace" && shiftKey e
            then Returns (key_shiftBackspace p)
            else if key_is e "Backspace" then Returns (key_backspace p)
            else if key_is e "Tab" && shiftKey e && one then key_shiftTab sel p
            else if key_is e "Tab" && negb (shiftKey e) && one then key_tab sel p
            else if key_is e "Tab" && (altKey e || metaKey e) && one
            then Returns (key_altTab sel p)
            else if (List.length (key e) =? 1)%nat
                    && negb (ctrlKey e) && negb (metaKey e) && negb (altKey e)
            then Returns (key_char (key e) p)
            else Returns p
        | None =>
            if key_is e "Escape" then Returns (clearSelection p)
            else if key_is e "Backspace" && shiftKey e
            then Returns (key_shiftBackspace p)
            else if key_is e "Backspace" then Returns (key_backspace p)
            else if (List.length (key e) =? 1)%nat
                    && negb (ctrlKey e) && negb (metaKey e) && negb (altKey e)
            then Returns (key_char (key e) p)
            else Returns p
        end
    end.

(** *** Pointer gestures *)

Definition getCentroidAndDistance (a b : Point) : Q * Q * Q :=
  let cx := (p_x a + p_x b) / 2 in
  let cy := (p_y a + p_y b) / 2 in
  let dx := p_x b - p_x a in
  let dy := p_y b - p_y a in
  (cx, cy, Math_hypot host dx dy).

(** [map.set(k, v)] and [map.delete(k)] on a [Map] in insertion order. *)
Fixpoint touch_set (k : Z) (v : Point) (m : list (Z * Point)) : list (Z * Point) :=
  match m with
  | [] => [(k, v)]
  | (k', v') :: rest =>
      if (k' =? k)%Z then (k, v) :: rest else (k', v') :: touch_set k v rest
  end.

Definition touch_delete (k : Z) (m : list (Z * Point)) : list (Z * Point) :=
  filter (fun kv => negb (fst kv =? k)%Z) m.

Definition touch_has (k : Z) (m : list (Z * Point)) : bool :=
  existsb (fun kv => (fst kv =? k)%Z) m.

Definition set_touches (m : list (Z * Point)) (g : Gesture) : Gesture :=
  mkGesture (draggingNodeId g) (dragOffset g) (somethingMoved g)
            (groupDragging g) (groupStart g) (groupStartPositions g)
            (panning g) (panStart g) (panAtStart g) m (pinchStart g).

Definition set_pinch (v : option Pinch) (g : Gesture) : Gesture :=
  mkGesture (draggingNodeId g) (dragOffset g) (somethingMoved g)
            (groupDragging g) (groupStart g) (groupStartPositions g)
            (panning g) (panStart g) (panAtStart g) (activeTouches g) v.

Definition set_panning (b : bool) (g : Gesture) : Gesture :=
  mkGesture (draggingNodeId g) (dragOffset g) (somethingMoved g)
            (groupDragging g) (groupStart g) (groupStartPositions g)
            b (panStart g) (panAtStart g) (activeTouches g) (pinchStart g).

Definition set_panStart (start atStart : Point) (g : Gesture) : Gesture :=
  mkGesture (draggingNodeId g) (dragOffset g) (somethingMoved g)
            (groupDragging g) (groupStart g) (groupStartPositions g)
            (panning g) start atStart (activeTouches g) (pinchStart g).

Definition set_somethingMoved (b : bool) (g : Gesture) : Gesture :=
  mkGesture (draggingNodeId g) (dragOffset g) b
            (groupDragging g) (groupStart g) (groupStartPositions g)
            (panning g) (panStart g) (panAtStart g) (activeTouches g)
            (pinchStart g).

Definition set_group (start : Point) (positions : list (Z * Point))
           (g : Gesture) : Gesture :=
  mkGesture (draggingNodeId g) (dragOffset g) (somethingMoved g)
            true start positions
            (panning g) (panStart g) (panAtStart g) (activeTouches g)
            (pinchStart g).

Definition set_drag (v : Z) (offset : Point) (g : Gesture) : Gesture :=
  mkGesture (Some v) offset false
            (groupDragging g) (groupStart g) (groupStartPositions g)
            (panning g) (panStart g) (panAtStart g) (activeTouches g)
            (pinchStart g).

Definition end_gesture (g : Gesture) : Gesture :=
  mkGesture None (dragOffset g) false
            false (groupStart g) (groupStartPositions g)
            false (panStart g) (panAtStart g) (activeTouches g)
            (pinchStart g).

Definition phase_idle (ph : Phase) : bool :=
  match ph with idle => true | _ => false end.

(** The handler on a node's group. The flag tells whether the event
    goes on to the handler of the drawing surface (no
    [stopPropagation]). *)
Definition onPointerDownNode (e : PointerEvent) (v : Z) (now : Z)
           (p : AppState) : run AppState * bool :=
  if opt_is_some (editingId r) then (Returns p, true)
  else if pointerShift e then
    match selectedId (scene r) with
    | Some sel =>
        if negb (sel =? v)%Z
        then (Returns (selectOnly v (ensureEdge sel v now (pushHistory p))), false)
        else
          let p := selectOnly v p in
          match findNode v with
          | Some src =>
              (Returns (setLinking (fun _ => mkLinking pending (Some v) (n_x src)
                                               (n_y src) (n_x src) (n_y src)) p),
               false)
          | None => (Throws p, false)
          end
    | None =>
        let p := selectOnly v p in
        match findNode v with
        | Some src =>
            (Returns (setLinking (fun _ => mkLinking pending (Some v) (n_x src)
                                             (n_y src) (n_x src) (n_y src)) p),
             false)
        | None => (Throws p, false)
        end
    end
  else if negb (phase_idle (phase (linking r))) then (Returns p, true)
  else
    let wasInSelection := has (selectedIds (scene r)) v in
    let p := set_freshTyping true p in
    let p := if negb wasInSelection then selectOnly v p else p in
    let w := toWorld (svg p) (clientX e) (clientY e) in
    if (1 <? size (selectedIds (scene r)))%nat then
      let positions :=
        fold_right
          (fun nid acc =>
             rest <- acc ;;
             match findNode nid with
             | Some n => Ok ((nid, mkPoint (n_x n) (n_y n)) :: rest)
             | None => Throw
             end)
          (Ok []) (Array_from (selectedIds (scene r))) in
      match positions with
      | Ok ps => (Returns (with_gesture (set_group w ps) p), true)
      | Throw =>
          (Throws (with_gesture
                     (fun g => set_group w (groupStartPositions g) g) p), true)
      end
    else
      match findNode v with
      | Some node =>
          (Returns (with_gesture
                      (set_drag v (mkPoint (n_x node - p_x w) (n_y node - p_y w)))
                      p), true)
      | None =>
          (Throws (with_gesture
                     (fun g => mkGesture (Some v) (dragOffset g) (somethingMoved g)
                                 (groupDragging g) (groupStart g)
                                 (groupStartPositions g) (panning g) (panStart g)
                                 (panAtStart g) (activeTouches g) (pinchStart g))
                     p), true)
      end.

Definition onPointerDownSvg (e : PointerEvent) (p : AppState) : AppState :=
  let here := mkPoint (clientX e) (clientY e) in
  let p := with_gesture
             (fun g => set_touches (touch_set (pointerId e) here (activeTouches g)) g)
             p in
  let p :=
    match map snd (activeTouches (gesture p)) with
    | [a; b] =>
        let '(cx, cy, d) := getCentroidAndDistance a b in
        with_gesture
          (set_pinch (Some (mkPinch d (scale (scene r)) (p_x (pan (scene r)))
                                    (p_y (pan (scene r))) cx cy))) p
    | _ => p
    end in
  let p := with_gesture
             (fun g => set_panning (List.length (activeTouches g) <? 2)%nat g) p in
  with_gesture (set_panStart here (pan (scene r))) p.

Definition onPointerDownBg (e : PointerEvent) (p : AppState) : AppState * bool :=
  let p := if opt_is_some (editingId r) then setEditingId None p else p in
  if negb (phase_idle (phase (linking r))) then (p, true)
  else if pointerShift e then
    let w := toWorld (svg p) (clientX e) (clientY e) in
    (setMarquee (fun _ => mkMarquee true (p_x w) (p_y w) (p_x w) (p_y w)) p, true)
  else
    let p := clearSelection p in
    let p := with_gesture (set_panning true) p in
    let p := with_gesture
               (set_panStart (mkPoint (clientX e) (clientY e)) (pan (scene r))) p in
    (set_freshTyping true p, true).

(** [new Map(entries).get(k)]: the last entry with the key. *)
Definition posMap_get (m : list (Z * Point)) (k : Z) : option Point :=
  match find (fun kv => (fst kv =? k)%Z) (rev m) with
  | Some kv => Some (snd kv)
  | None => None
  end.

Definition onPointerMoveSvg (e : PointerEvent) (p : AppState) : run AppState :=
  let here := mkPoint (clientX e) (clientY e) in
  let tracked := touch_has (pointerId e) (activeTouches (gesture p)) in
  let p := if tracked
           then with_gesture
                  (fun g => set_touches (touch_set (pointerId e) here
                                                   (activeTouches g)) g) p
           else p in
  let pinching :=
    if tracked then
      match map snd (activeTouches (gesture p)), pinchStart (gesture p) with
      | [a; b], Some ps => Some (a, b, ps)
      | _, _ => None
      end
    else None in
  match pinching with
  | Some (a, b, ps) =>
      let '(cx, cy, d) := getCentroidAndDistance a b in
      match svg p with
      | None => Throws p
      | Some rect =>
          let s0 := pinch_scale ps in
          let s := clamp (s0 * (d / pinch_d ps)) (3 # 10) 3 in
          let wx0 := (pinch_cx ps - r_left rect - pinch_panX ps) / pinch_scale ps in
          let wy0 := (pinch_cy ps - r_top rect - pinch_panY ps) / pinch_scale ps in
          let newPanX := (cx - r_left rect) - wx0 * s in
          let newPanY := (cy - r_top rect) - wy0 * s in
          Returns (setPan (fun _ => mkPoint newPanX newPanY) (setScale s p))
      end
  | None =>
      if m_active (marquee r) then
        let w := toWorld (svg p) (clientX e) (clientY e) in
        Returns (setMarquee
                   (fun m => mkMarquee (m_active m) (m_x1 m) (m_y1 m) (p_x w) (p_y w))
                   p)
      else if negb (phase_idle (phase (linking r))) then
        let w := toWorld (svg p) (clientX e) (clientY e) in
        let thresholdWorld := DRAG_THRESHOLD / scale (scene r) in
        let moved :=
          Qltb thresholdWorld
               (Math_hypot host (p_x w - startX (linking r))
                           (p_y w - startY (linking r))) in
        match phase (linking r) with
        | pending =>
            if moved
            then Returns (setLinking
                            (fun l => mkLinking active (sourceId l) (p_x w) (p_y w)
                                                (startX l) (startY l)) p)
            else Returns p
        | _ =>
            Returns (setLinking
                       (fun l => mkLinking (phase l) (sourceId l) (p_x w) (p_y w)
                                           (startX l) (startY l)) p)
        end
      else if groupDragging (gesture p) then
        let p := with_gesture (set_somethingMoved true) p in
        let w := toWorld (svg p) (clientX e) (clientY e) in
        let dx := p_x w - p_x (groupStart (gesture p)) in
        let dy := p_y w - p_y (groupStart (gesture p)) in
        let posMap := groupStartPositions (gesture p) in
        if forallb (fun n => negb (has (selectedIds (scene r)) (n_id n))
                             || opt_is_some (posMap_get posMap (n_id n)))
                   (nodes (scene p))
        then
          Returns
            (setNodes
               (map (fun n =>
                       if has (selectedIds (scene r)) (n_id n) then
                         match posMap_get posMap (n_id n) with
                         | Some q => node_with_xy n (p_x q + dx) (p_y q + dy)
                         | None => n
                         end
                       else n)) p)
        else Throws p
      else
        match draggingNodeId (gesture p) with
        | Some v =>
            let w := toWorld (svg p) (clientX e) (clientY e) in
            let off := dragOffset (gesture p) in
            let p :=
              setNodes
                (map (fun n =>
                        if (n_id n =? v)%Z
                        then node_with_xy n (p_x w + p_x off) (p_y w + p_y off)
                        else n)) p in
            Returns (with_gesture (set_somethingMoved true) p)
        | None =>
            if panning (gesture p) then
              let dx := clientX e - p_x (panStart (gesture p)) in
              let dy := clientY e - p_y (panStart (gesture p)) in
              Returns (setPan (fun _ => mkPoint (p_x (panAtStart (gesture p)) + dx)
                                                (p_y (panAtStart (gesture p)) + dy)) p)
            else Returns p
        end
  end.

Definition onPointerUpSvg (e : option PointerEvent) (now : Z) (p : AppState)
  : AppState :=
  let p :=
    match e with
    | Some ev =>
        let p := with_gesture
                   (fun g => set_touches (touch_delete (pointerId ev)
                                                       (activeTouches g)) g) p in
        if (List.length (activeTouches (gesture p)) <? 2)%nat
        then with_gesture (set_pinch None) p else p
    | None => p
    end in
  let p :=
    if m_active (marquee r) then
      let m := marquee r in
      let minX := Math_min (m_x1 m) (m_x2 m) in
      let maxX := Math_max (m_x1 m) (m_x2 m) in
      let minY := Math_min (m_y1 m) (m_y2 m) in
      let maxY := Math_max (m_y1 m) (m_y2 m) in
      let ids :=
        map n_id
            (filter (fun n => Qle_bool minX (n_x n) && Qle_bool (n_x n) maxX
                              && Qle_bool minY (n_y n) && Qle_bool (n_y n) maxY)
                    (nodes (scene r))) in
      let p := selectFromArray ids p in
      setMarquee (fun _ => mkMarquee false 0 0 0 0) p
    else p in
  let p :=
    match (if negb (phase_idle (phase (linking r)))
           then sourceId (linking r) else None) with
    | Some src =>
        let p :=
          match findNodeAt (link_x (linking r)) (link_y (linking r)) (Some src) with
          | Some targetId =>
              if (targetId =? 0)%Z then p
              else
                let exists_ := existsb (connects src targetId) (edges (scene r)) in
                let p :=
                  if negb exists_
                  then setEdges (fun es => es ++ [mkLink now src targetId None None])
                                (pushHistory p)
                  else p in
                selectOnly targetId p
          | None => p
          end in
        setLinking (fun _ => mkLinking idle None 0 0 0 0) p
    | None => p
    end in
  let p := if somethingMoved (gesture p) then pushHistory p else p in
  with_gesture end_gesture p.

Definition onPointerCancelSvg (e : PointerEvent) (p : AppState) : AppState :=
  let p := with_gesture
             (fun g => set_touches (touch_delete (pointerId e) (activeTouches g)) g)
             p in
  let p := with_gesture (set_pinch None) p in
  with_gesture (set_panning false) p.

Definition onWheelSvg (e : WheelEvent) (p : AppState) : run AppState :=
  let doZoom := negb (wheelShift e) in
  if doZoom then
    let zoomIntensity := 15 # 10000 in
    let factor := Math_exp host (- deltaY e * zoomIntensity) in
    let newScale := clamp (scale (scene r) * factor) (3 # 10) 3 in
    match svg p with
    | None => Throws p
    | Some rect =>
        let mx := wheelX e - r_left rect in
        let my := wheelY e - r_top rect in
        let wx := (mx - p_x (pan (scene r))) / scale (scene r) in
        let wy := (my - p_y (pan (scene r))) / scale (scene r) in
        let newPanX := mx - wx * newScale in
        let newPanY := my - wy * newScale in
        Returns (setScale newScale (setPan (fun _ => mkPoint newPanX newPanY) p))
    end
  else
    Returns (setPan (fun prev => mkPoint (p_x prev - deltaX e) (p_y prev - deltaY e)) p).

(** *** Commands of the context menu and of the inline input

    The menu is a widget outside the model: its state is left out, and the
    node or edge it was opened on and the colour or text chosen are
    arguments. A fill colour is the palette entry after [hexToRgba60], a
    stroke colour the palette entry itself. *)
Inductive MenuCommand :=
| NewNode (at_ : option Point)
| FillSelection (rgba : json)
| ClearFillSelection
| DeleteSelection
| Rename (target : Z)
| Child (target : Z)
| Sibling (target : Z)
| ToggleBold (target : Z)
| Fill (target : Z) (rgba : json)
| ClearFill (target : Z)
| Stroke (target : Z) (color : json)
| DeleteNode (target : Z)
| ToggleDashed (target : Z)
| EdgeLabel (target : Z) (next : option jsstring)
| DeleteEdge (target : Z).

Definition node_with_fill (n : MindNode) (fill : option json) : MindNode :=
  mkNode (n_id n) (n_label n) (n_x n) (n_y n) (n_w n) (n_h n) (n_strokeColor n)
         fill (n_bold n).

Definition node_with_stroke (n : MindNode) (stroke : json) : MindNode :=
  mkNode (n_id n) (n_label n) (n_x n) (n_y n) (n_w n) (n_h n) stroke
         (n_fillColor n) (n_bold n).

Definition node_with_bold (n : MindNode) (b : bool) : MindNode :=
  mkNode (n_id n) (n_label n) (n_x n) (n_y n) (n_w n) (n_h n) (n_strokeColor n)
         (n_fillColor n) b.

(** The body shared by [applyFillToSelection] and [clearFillOfSelection]. *)
Definition fillSelection (fill : option json) (p : AppState) : AppState :=
  let ids := Array_from (selectedIds (scene r)) in
  match ids with
  | [] => p
  | _ =>
      let p := pushHistory p in
      setNodes (map (fun n => if includes ids (n_id n) then node_with_fill n fill
                              else n)) p
  end.

(** [rgba] is [hexToRgba60(hex)]. *)
Definition applyFillToSelection (rgba : json) : AppState -> AppState :=
  fillSelection (Some rgba).

Definition clearFillOfSelection : AppState -> AppState := fillSelection None.

(** The edit of one node by the menu: [pushHistory()], then the update. *)
Definition editNode (target : Z) (f : MindNode -> MindNode) (p : AppState)
  : AppState :=
  let p := pushHistory p in
  setNodes (map (fun n => if (n_id n =? target)%Z then f n else n)) p.

Definition editEdge (target : Z) (f : Link -> Link) (p : AppState) : AppState :=
  let p := pushHistory p in
  setEdges (map (fun ed => if (e_id ed =? target)%Z then f ed else ed)) p.

(** [next] is what [window.prompt] returned, [None] for [null]. *)
Definition menu (m : MenuCommand) (now : Z) (p : AppState) : AppState :=
  match m with
  | NewNode at_ => let '(v, p) := addStandalone at_ p in selectOnly v p
  | FillSelection rgba => applyFillToSelection rgba p
  | ClearFillSelection => clearFillOfSelection p
  | DeleteSelection =>
      if (0 <? size (selectedIds (scene r)))%nat
      then removeNodes (Array_from (selectedIds (scene r))) p
      else if (0 <? size (selectedEdgeIds (scene r)))%nat
           then removeEdges (Array_from (selectedEdgeIds (scene r))) p
           else p
  | Rename target => setEditingId (Some target) p
  | Child target => let '(v, p) := addChild target now p in selectOnly v p
  | Sibling target => let '(v, p) := addSiblingOf target now p in selectOnly v p
  | ToggleBold target =>
      editNode target (fun n => node_with_bold n (negb (n_bold n))) p
  | Fill target rgba => editNode target (fun n => node_with_fill n (Some rgba)) p
  | ClearFill target => editNode target (fun n => node_with_fill n None) p
  | Stroke target color => editNode target (fun n => node_with_stroke n color) p
  | DeleteNode target => removeNodes [target] p
  | ToggleDashed target =>
      editEdge target
               (fun ed => mkLink (e_id ed) (e_source ed) (e_target ed) (e_label ed)
                                 (Some (negb (match e_dashed ed with
                                              | Some b => b
                                              | None => false
                                              end)))) p
  | EdgeLabel target next =>
      match next with
      | None => p
      | Some text =>
          editEdge target
                   (fun ed => link_with_label ed (if truthy_str text then Some text
                                                  else None)) p
      end
  | DeleteEdge target => removeEdges [target] p
  end.

(** [onChange] of the inline input, for the new text [v]. *)
Definition onInputChange (v : jsstring) (p : AppState) : AppState :=
  match editingId r with
  | Some target =>
      editNode target (fun n => resizeNodeForLabel (node_with_label n v)) p
  | None => p
  end.

End Render.

(** *** Persistence: the load effect *)

Fixpoint lookup (fields : list (jsstring * json)) (k : jsstring) : option json :=
  match fields with
  | [] => None
  | (k', v) :: rest => if str_eqb k' k then Some v else lookup rest k
  end.

(** [data?.k]: [undefined] on [null], and on the values that have no such
    property. *)
Definition member (data : json) (k : string) : option json :=
  match data with
  | JObj fields => lookup fields (str k)
  | _ => None
  end.

(** [n.k] for the keys the loader reads: a [TypeError] on [null]; none of
    the keys is a property of a number, a boolean, a string or an array,
    save [bold] on a string (see [inherits_bold]). *)
Definition field (n : json) (k : string) : outcome (option json) :=
  match n with
  | JNull => Throw
  | JObj fields => Ok (lookup fields (str k))
  | _ => Ok None
  end.

(** ["text".bold] is the method [String.prototype.bold]. *)
Definition inherits_bold (n : json) : bool :=
  match n with JStr _ => true | _ => false end.

(** [v ?? d]. *)
Definition nullish_or (v : option json) (d : json) : json :=
  match v with
  | None | Some JNull => d
  | Some a => a
  end.

Definition to_number (v : option json) : Q :=
  match v with
  | Some (JNum q) => q
  | Some (JBool b) => if b then 1 else 0
  | Some JNull => 0
  | _ => Number_of host v
  end.

Definition to_id (v : option json) : Z :=
  match v with
  | Some (JNum q) =>
      if Qeq_bool q (inject_Z (Qfloor q)) then Qfloor q else Id_of host v
  | Some (JBool b) => if b then 1%Z else 0%Z
  | Some JNull => 0%Z
  | _ => Id_of host v
  end.

Definition to_string (v : json) : jsstring :=
  match v with
  | JStr t => t
  | _ => String_of host v
  end.

Definition to_boolean (v : option json) : bool :=
  match v with
  | None | Some JNull => false
  | Some (JBool b) => b
  | Some (JNum q) => negb (Qeq_bool q 0)
  | Some (JStr t) => truthy_str t
  | Some (JArr _) | Some (JObj _) => true
  end.

Definition migrateNode (n : json) : outcome MindNode :=
  i <- field n "id" ;;
  l <- field n "label" ;;
  x <- field n "x" ;;
  y <- field n "y" ;;
  w <- field n "w" ;;
  h <- field n "h" ;;
  stroke <- field n "strokeColor" ;;
  fill <- field n "fillColor" ;;
  b <- field n "bold" ;;
  Ok (mkNode (to_id i)
             (to_string (nullish_or l (JStr [])))
             (to_number x) (to_number y)
             (to_number (Some (nullish_or w (JNum BASE_W))))
             (to_number (Some (nullish_or h (JNum BASE_H))))
             (nullish_or stroke default_stroke)
             fill
             (inherits_bold n || to_boolean b)).

Definition migrateEdge (e : json) : outcome Link :=
  i <- field e "id" ;;
  src <- field e "source" ;;
  tgt <- field e "target" ;;
  l <- field e "label" ;;
  d <- field e "dashed" ;;
  Ok (mkLink (to_id i) (to_id src) (to_id tgt)
             (if to_boolean l
              then match l with Some v => Some (to_string v) | None => None end
              else None)
             (Some (to_boolean d))).

(** [array.map(f)] for an [f] that may throw. *)
Fixpoint map_outcome {A B} (f : A -> outcome B) (l : list A) : outcome (list B) :=
  match l with
  | [] => Ok []
  | a :: rest => b <- f a ;; bs <- map_outcome f rest ;; Ok (b :: bs)
  end.

(** The [try] block of the load effect, for the stored text [raw]. *)
Definition load_try (raw : jsstring) (p : AppState) : outcome AppState :=
  match JSON_parse host raw with
  | None => Throw
  | Some data =>
      match member data "nodes", member data "edges" with
      | Some (JArr ns), Some (JArr es) =>
          migrated <- map_outcome migrateNode ns ;;
          migratedEdges <- map_outcome migrateEdge es ;;
          Ok (setEdges (fun _ => migratedEdges) (setNodes (fun _ => migrated) p))
      | _, _ => Ok p
      end
  end.

(** The load effect; [raw] is [localStorage.getItem(STORAGE_KEY)]. *)
Definition load (raw : option jsstring) (p : AppState) : AppState :=
  match raw with
  | None | Some [] => p
  | Some text =>
      match load_try text p with
      | Ok p' => p'
      | Throw => p
      end
  end.

(** *** Events

    An event runs the handlers of the current render on the current
    state. *)

Definition do_undo (s : AppState) : AppState := undo s s.
Definition do_redo (s : AppState) : AppState := redo s s.

Definition keydown (e : KeyEvent) (now : Z) (s : AppState) : run AppState :=
  handler s e now s.

(** Pointer down on a node: the node's handler, then the drawing
    surface's unless the event was stopped. *)
Definition pointerDownOnNode (e : PointerEvent) (v : Z) (now : Z) (s : AppState)
  : run AppState :=
  match onPointerDownNode s e v now s with
  | (Returns p, true) => Returns (onPointerDownSvg s e p)
  | (Throws p, true) => Throws (onPointerDownSvg s e p)
  | (res, _) => res
  end.

Definition pointerMove (e : PointerEvent) (s : AppState) : run AppState :=
  onPointerMoveSvg s e s.

Definition pointerUp (e : PointerEvent) (now : Z) (s : AppState) : AppState :=
  onPointerUpSvg s (Some e) now s.

Definition wheel (e : WheelEvent) (s : AppState) : run AppState :=
  onWheelSvg s e s.

End Engine.

(** The state the component starts from, for the initial [pan] and the
    drawing surface. *)
Definition firstNode : MindNode :=
  mkNode 1 (str "Type to change Text") 0 0 BASE_W BASE_H default_stroke None false.

Definition noGesture : Gesture :=
  mkGesture None (mkPoint 0 0) false false (mkPoint 0 0) [] false
            (mkPoint 0 0) (mkPoint 0 0) [] None.

Definition initialState (pn : Point) (sv : option Rect) : AppState :=
  mkApp (mkScene [firstNode] [] pn 1 (Some 1%Z) (new_Set [1%Z]) (new_Set []))
        (mkMarquee false 0 0 0 0) None (mkLinking idle None 0 0 0 0)
        None 0 noGesture true [] [] sv [].

(** * Vocabulary of the statements, and sample states *)

(** The words one pass wraps. *)
Definition wrapped_words (label : jsstring) : list jsstring :=
  match filter truthy_str (split_ws label) with
  | [] => [label]
  | ws => ws
  end.

(** The sample text of the layout counterexample: four words of eight
    letters. *)
Definition fourWords : jsstring := str "aaaaaaaa bbbbbbbb cccccccc dddddddd".

(** The store's commands, called on the current state. *)
Definition do_removeNodes (ids : list Z) (s : AppState) : AppState :=
  removeNodes s ids s.

Definition do_removeEdges (ids : list Z) (s : AppState) : AppState :=
  removeEdges s ids s.

Definition do_ensureEdge (a b now : Z) (s : AppState) : AppState :=
  ensureEdge s a b now s.

Definition do_addChild (host : Host) (parentId now : Z) (s : AppState)
  : Z * AppState :=
  addChild host s parentId now s.

(** An edge with an end among [ids]. *)
Definition touches (ids : list Z) (e : Link) : bool :=
  mem (e_source e) ids || mem (e_target e) ids.

(** No edge dangles: both ends of every edge are ids of nodes. *)
Definition resolved (c : Scene) : Prop :=
  Forall (fun e => mem (e_source e) (map n_id (nodes c)) = true
                   /\ mem (e_target e) (map n_id (nodes c)) = true)
         (edges c).

(** A drawing surface of 800 by 600 pixels. *)
Definition surface : Rect := mkRect 0 0 800 600.

(** A state with the nodes 1, 2, 3, the edges 1-2 and 2-3, node 2
    selected. *)
Definition threeNodes : AppState :=
  mkApp (mkScene [firstNode; blankNode 2 160 0 default_stroke None;
                  blankNode 3 320 0 default_stroke None]
                 [mkLink 10 1 2 None None; mkLink 11 2 3 None None]
                 (mkPoint 400 300) 1 (Some 2%Z) (new_Set [2%Z]) (new_Set []))
        (mkMarquee false 0 0 0 0) None (mkLinking idle None 0 0 0 0)
        None 0 noGesture true [] [] (Some surface) [].

(** The edges between the unordered pair [{a, b}]. *)
Definition pair_count (a b : Z) (es : list Link) : nat :=
  List.length (filter (connects a b) es).

(** A host for running examples. The functions the model cannot compute
    are replaced by plain rational stand-ins and [JSON.parse] by a parser
    that yields [parsed]; the examples do not depend on the stand-ins. *)
Definition exampleHost (parsed : option json) : Host :=
  mkHost (fun v => 1 + v) (fun _ => 1) (fun _ => 0) (fun v => v)
         (fun a b => Qabs a + Qabs b) (fun _ _ => 0) (355 # 113)
         (fun _ => 0) (fun _ => 0%Z) (fun _ => []) (fun _ => parsed).

(** The key events of the two branches: Shift with [+] or [=], Shift with
    [-] or [_]; the other modifiers are free. *)
Definition plusKey (equals ctrl meta alt : bool) : KeyEvent :=
  mkKey (if equals then str "=" else str "+") true ctrl meta alt false.

Definition minusKey (underscore ctrl meta alt : bool) : KeyEvent :=
  mkKey (if underscore then str "_" else str "-") true ctrl meta alt false.

(** A state whose one node, selected, is 1000 wide: a long label makes
    [layoutLabel] return such a width. *)
Definition wideNode : AppState :=
  mkApp (mkScene [node_with_wh firstNode 1000 64] [] (mkPoint 400 300) 1
                 (Some 1%Z) (new_Set [1%Z]) (new_Set []))
        (mkMarquee false 0 0 0 0) None (mkLinking idle None 0 0 0 0)
        None 0 noGesture true [] [] (Some surface) [].

(** [q] has the undo stack of [p], or that stack with the snapshot of the
    render state [s] pushed on it. *)
Definition hist_ok (s p q : AppState) : Prop :=
  undoStack q = undoStack p \/ undoStack q = snapshot s :: undoStack p.

Definition is_undo_key (e : KeyEvent) : bool :=
  (ctrlKey e || metaKey e) && negb (shiftKey e) && (key_is e "z" || key_is e "Z").

Definition is_redo_key (e : KeyEvent) : bool :=
  (ctrlKey e || metaKey e)
  && (key_is e "y" || (shiftKey e && (key_is e "Z" || key_is e "z"))).

(** The edits: the store's commands, a key other than Undo and Redo, Shift
    and pointer down on a node, a pointer release that does not end a drag,
    a command of the context menu and a change of the inline input. *)
Inductive Edit :=
| AddStandalone (at_ : option Point)
| AddChild (parentId : Z)
| AddSiblingOf (nodeId : Z)
| RemoveNodes (ids : list Z)
| RemoveEdges (ids : list Z)
| Press (e : KeyEvent)
| ShiftClick (e : PointerEvent) (v : Z)
| Release (e : PointerEvent)
| Pick (m : MenuCommand)
| InputChange (text : jsstring).

Definition returned {A} (res : run A) : option A :=
  match res with Returns a => Some a | _ => None end.

(** The state after the edit, once its handler has returned and the timers
    it queued have fired; [None] when the handler does not return, or when
    the event is not an edit of the list. *)
Definition apply (host : Host) (now : Z) (c : Edit) (s : AppState)
  : option AppState :=
  option_map flush
    match c with
    | AddStandalone at_ => Some (snd (addStandalone host s at_ s))
    | AddChild v => Some (snd (do_addChild host v now s))
    | AddSiblingOf v => Some (snd (addSiblingOf host s v now s))
    | RemoveNodes ids => Some (do_removeNodes ids s)
    | RemoveEdges ids => Some (do_removeEdges ids s)
    | Press e =>
        if is_undo_key e || is_redo_key e then None
        else returned (keydown host e now s)
    | ShiftClick e v =>
        if pointerShift e then returned (pointerDownOnNode host e v now s)
        else None
    | Release e =>
        if somethingMoved (gesture s) then None else Some (pointerUp e now s)
    | Pick m => Some (menu host s m now s)
    | InputChange text => Some (onInputChange s text s)
    end.

Definition startState : AppState := initialState (mkPoint 400 300) (Some surface).

Definition enterKey : KeyEvent := mkKey (str "Enter") false false false false false.

Definition grab : PointerEvent := mkPointer 1 400 300 false.
Definition carry : PointerEvent := mkPointer 1 450 300 false.

(** The start state after pointer down on node 1, a move 50 pixels to the
    right and the release. *)
Definition dragged : AppState :=
  Eval vm_compute in
    match pointerDownOnNode (exampleHost None) grab 1 0 startState with
    | Returns s1 =>
        match pointerMove (exampleHost None) carry s1 with
        | Returns s2 => pointerUp carry 0 s2
        | _ => startState
        end
    | _ => startState
    end.

(** The chain of parents from the head of [l] up to a node without
    parent. *)
Fixpoint is_chain (s : AppState) (l : list Z) : Prop :=
  match l with
  | [] => False
  | c :: t =>
      match t with
      | [] => getParentId s c = None
      | d :: _ => getParentId s c = Some d /\ is_chain s t
      end
  end.

(** Node 1 with its child, node 2, selected; no path remembered. *)
Definition parentAndChild : AppState :=
  mkApp (mkScene [firstNode; blankNode 2 160 0 default_stroke None]
                 [mkLink 10 1 2 None None]
                 (mkPoint 400 300) 1 (Some 2%Z) (new_Set [2%Z]) (new_Set []))
        (mkMarquee false 0 0 0 0) None (mkLinking idle None 0 0 0 0)
        None 0 noGesture true [] [] (Some surface) [].

Definition shiftTabKey : KeyEvent := mkKey (str "Tab") true false false false false.

Definition is_null (v : json) : bool :=
  match v with JNull => true | _ => false end.

(** [n.k] when [n] is not [null]. *)
Definition own (n : json) (k : string) : option json :=
  match n with
  | JObj fields => lookup fields (str k)
  | _ => None
  end.

(** The node and the edge the loader makes of a stored element that is not
    [null]. *)
Definition nodeOf (host : Host) (n : json) : MindNode :=
  mkNode (to_id host (own n "id"))
         (to_string host (nullish_or (own n "label") (JStr [])))
         (to_number host (own n "x")) (to_number host (own n "y"))
         (to_number host (Some (nullish_or (own n "w") (JNum BASE_W))))
         (to_number host (Some (nullish_or (own n "h") (JNum BASE_H))))
         (nullish_or (own n "strokeColor") default_stroke)
         (own n "fillColor")
         (inherits_bold n || to_boolean (own n "bold")).

Definition edgeOf (host : Host) (e : json) : Link :=
  mkLink (to_id host (own e "id")) (to_id host (own e "source"))
         (to_id host (own e "target"))
         (if to_boolean (own e "label")
          then match own e "label" with
               | Some v => Some (to_string host v)
               | None => None
               end
          else None)
         (Some (to_boolean (own e "dashed"))).

(** The two arrays of a stored value, when it has both. *)
Definition stored_arrays (data : json) : option (list json * list json) :=
  match member data "nodes", member data "edges" with
  | Some (JArr ns), Some (JArr es) => Some (ns, es)
  | _, _ => None
  end.

(** What loading does, case by case, with no exception left. *)
Definition load_described (host : Host) (raw : option jsstring) (s : AppState)
  : AppState :=
  match raw with
  | None | Some [] => s
  | Some text =>
      match JSON_parse host text with
      | None => s
      | Some data =>
          match stored_arrays data with
          | None => s
          | Some (ns, es) =>
              if existsb is_null ns || existsb is_null es then s
              else setEdges (fun _ => map (edgeOf host) es)
                            (setNodes (fun _ => map (nodeOf host) ns) s)
          end
      end
  end.

(** The stored text [{"nodes":[{"id":1,"strokeColor":42}],"edges":[]}],
    parsed. *)
Definition numericStroke : json :=
  JObj [(str "nodes", JArr [JObj [(str "id", JNum 1); (str "strokeColor", JNum 42)]]);
        (str "edges", JArr [])].

Definition is_string (v : json) : bool :=
  match v with JStr _ => true | _ => false end.

(** * Properties *)

(** ** Label layout *)

Lemma Qmax_absorb (a x : Q) : Qmax (Qmax a x) x = Qmax a x.
Proof.
  unfold Qmax, GenericMinMax.gmax.
  destruct (a ?= x) eqn:E; try (rewrite E; reflexivity).
  destruct (x ?= x); reflexivity.
Qed.

Lemma widened_twice label f w :
  Label.widened label f (Label.widened label f w) = Label.widened label f w.
Proof. unfold Label.widened, Math_max. apply Qmax_absorb. Qed.

Lemma le_widened label f w : w <= Label.widened label f w.
Proof. unfold Label.widened, Math_max. apply Q.le_max_l. Qed.

(** From the second pass on the width no longer moves, so every later pass
    repeats the second one. *)
Lemma attempts_settled label f ws w n l :
  Label.attempts (S n) label f ws (l, Label.widened label f w)
  = (Label.wrap f (Label.widened label f w)
                (match ws with [] => [label] | _ => ws end),
     Label.widened label f w).
Proof.
  revert l. induction n as [|n IH]; intros l.
  - simpl. unfold Label.rebuild.
    destruct (Label.maxLines <? _)%nat; [rewrite widened_twice|]; reflexivity.
  - change (Label.attempts (S (S n)) label f ws (l, Label.widened label f w))
      with (let '(ls, w', ok) := Label.rebuild label f ws (Label.widened label f w) in
            if ok then (ls, w') else Label.attempts (S n) label f ws (ls, w')).
    unfold Label.rebuild.
    destruct (Label.maxLines <? _)%nat; [|reflexivity].
    rewrite widened_twice. apply IH.
Qed.

(** The six passes: the wrap at the starting width when it has at most
    three lines, the wrap at the once-widened width otherwise. *)
Lemma attempts_six label f ws w0 :
  Label.attempts 6 label f ws ([], w0)
  = let ws' := match ws with [] => [label] | _ => ws end in
    if (3 <? List.length (Label.wrap f w0 ws'))%nat
    then (Label.wrap f (Label.widened label f w0) ws', Label.widened label f w0)
    else (Label.wrap f w0 ws', w0).
Proof.
  cbv zeta.
  change (Label.attempts 6 label f ws ([], w0))
    with (let '(ls, w', ok) := Label.rebuild label f ws w0 in
          if ok then (ls, w') else Label.attempts 5 label f ws (ls, w')).
  unfold Label.rebuild. change Label.maxLines with 3%nat.
  destruct (3 <? _)%nat; [|reflexivity].
  apply attempts_settled.
Qed.

Lemma fold_max_upper (f : Q) (ls : list jsstring) :
  Forall (fun t => approxTextWidth t f
                   <= fold_right Math_max 0 (map (fun t => approxTextWidth t f) ls)) ls.
Proof.
  induction ls as [|a ls IH]; constructor; simpl.
  - apply Q.le_max_l.
  - eapply Forall_impl; [|exact IH]. simpl. intros t Ht.
    eapply Qle_trans; [exact Ht|apply Q.le_max_r].
Qed.

(** C6. For every label, font size and minimum width the box that
    [layoutLabel] returns is at least [BASE_H] = 64 high and at least
    [max(minW, BASE_W)] wide, [BASE_W] = 120. *)
Theorem layoutLabel_at_least_base (label : jsstring) (f minW : Q) :
  BASE_H <= height (layoutLabel label f minW)
  /\ Qmax minW BASE_W <= width (layoutLabel label f minW).
Proof.
  unfold layoutLabel. rewrite attempts_six. cbv zeta.
  destruct (3 <? _)%nat; cbn [height width]; unfold Math_max; split;
    try apply Q.le_max_l.
  - eapply Qle_trans; [apply le_widened|apply Q.le_max_l].
Qed.

(** C5, as stated, fails: at font size 20 and minimum width 120 the four
    words of [fourWords] come back as four lines, one word each. *)
Lemma layoutLabel_returns_four_lines :
  ~ (List.length (lines (layoutLabel fourWords 20 120)) <= 3)%nat.
Proof. vm_compute. intros H. repeat (apply le_S_n in H). inversion H. Qed.

(** C5, amended. [layoutLabel] wraps at most six times. Its lines are
    those of the greedy wrap at width [max(minW, BASE_W)] when that wrap has
    at most three lines, and otherwise those of the greedy wrap at the width
    widened once from the average target characters per line; so it returns
    more than three lines exactly when both wraps do. In every case each
    returned line's estimated width fits in the returned width less twice
    the horizontal padding. *)
Theorem layoutLabel_lines_fit (label : jsstring) (f minW : Q) :
  let L := layoutLabel label f minW in
  let ws := wrapped_words label in
  let W0 := Math_max minW BASE_W in
  let W1 := Label.widened label f W0 in
  let shown (ls : list jsstring) := match ls with [] => [[]] | _ => ls end in
  Forall (fun t => approxTextWidth t f <= width L - 2 * paddingX L) (lines L)
  /\ lines L = (if (3 <? List.length (Label.wrap f W0 ws))%nat
                then shown (Label.wrap f W1 ws)
                else shown (Label.wrap f W0 ws))
  /\ ((3 < List.length (lines L))%nat
      <-> (3 < List.length (Label.wrap f W0 ws))%nat
          /\ (3 < List.length (Label.wrap f W1 ws))%nat).
Proof.
  cbv zeta. unfold layoutLabel. rewrite attempts_six. cbv zeta.
  fold (wrapped_words label).
  assert (Hws : match filter truthy_str (split_ws label) with
                | [] => [label] | _ :: _ => filter truthy_str (split_ws label)
                end = wrapped_words label).
  { unfold wrapped_words. destruct (filter truthy_str (split_ws label)); reflexivity. }
  rewrite Hws. clear Hws.
  set (ws := wrapped_words label).
  set (W0 := Math_max minW BASE_W).
  set (W1 := Label.widened label f W0).
  assert (Hfit : forall ls w0, BASE_W <= w0 ->
    Forall (fun t => approxTextWidth t f
                     <= Math_max w0 (Math_ceil
                          (fold_right Math_max 0 (map (fun t => approxTextWidth t f) ls)
                           + Label.padX * 2)) - 2 * Label.padX)
           (match ls with [] => [[]] | _ => ls end)).
  { intros ls w0 Hw0.
    assert (Hall : Forall (fun t => approxTextWidth t f
                     <= Math_max w0 (Math_ceil
                          (fold_right Math_max 0 (map (fun t => approxTextWidth t f) ls)
                           + Label.padX * 2)) - 2 * Label.padX) ls).
    { eapply Forall_impl; [|apply (fold_max_upper f ls)]. simpl. intros t Ht.
      set (m := fold_right Math_max 0 (map (fun t => approxTextWidth t f) ls)) in *.
      assert (H1 : m + Label.padX * 2 <= Math_ceil (m + Label.padX * 2))
        by apply Qle_ceiling.
      assert (H2 : Math_ceil (m + Label.padX * 2)
                   <= Math_max w0 (Math_ceil (m + Label.padX * 2)))
        by apply Q.le_max_r.
      unfold Label.padX in *. lra. }
    destruct ls as [|a ls]; [|exact Hall].
    constructor; [|constructor].
    assert (H0 : w0 <= Math_max w0 (Math_ceil
                   (fold_right Math_max 0 (map (fun t => approxTextWidth t f) [])
                    + Label.padX * 2))) by apply Q.le_max_l.
    assert (Hz : approxTextWidth [] f == 0).
    { unfold approxTextWidth, len. simpl. ring. }
    rewrite Hz. unfold Label.padX, BASE_W in *. lra. }
  assert (HW0 : BASE_W <= W0) by apply Q.le_max_r.
  assert (HW1 : BASE_W <= W1).
  { eapply Qle_trans; [exact HW0|apply le_widened]. }
  assert (Hlen : forall ls : list jsstring,
             (3 < List.length (match ls with [] => [[]] | _ => ls end))%nat
             <-> (3 < List.length ls)%nat).
  { intros [|a ls]; simpl; [lia | reflexivity]. }
  destruct (3 <? List.length (Label.wrap f W0 ws))%nat eqn:E;
    cbn [lines width paddingX]; (split; [|split]).
  - apply Hfit. exact HW1.
  - reflexivity.
  - rewrite Hlen. apply Nat.ltb_lt in E. tauto.
  - apply Hfit. exact HW0.
  - reflexivity.
  - rewrite Hlen. apply Nat.ltb_ge in E. lia.
Qed.

(** ** The graph store *)

Lemma mem_add_item v l a : mem v (add_item l a) = mem v l || (v =? a)%Z.
Proof.
  unfold add_item. destruct (mem a l) eqn:E.
  - destruct (Z.eqb_spec v a) as [->|_]; [rewrite E|]; now rewrite ?orb_false_r.
  - rewrite mem_app. simpl. now rewrite orb_false_r.
Qed.

Lemma mem_fold_add v vs : forall l,
  mem v (fold_left add_item vs l) = mem v l || mem v vs.
Proof.
  induction vs as [|a vs IH]; intros l; simpl.
  - now rewrite orb_false_r.
  - rewrite IH, mem_add_item. now rewrite orb_assoc.
Qed.

Lemma has_new_Set vs v : has (new_Set vs) v = mem v vs.
Proof. unfold has. simpl. now rewrite mem_fold_add. Qed.

Lemma filter_all {A} (l : list A) : filter (fun _ => true) l = l.
Proof. induction l as [|a l IH]; simpl; congruence. Qed.

Lemma mem_ids_filter v ids (l : list MindNode) :
  mem v (map n_id (filter (fun n => negb (mem (n_id n) ids)) l))
  = mem v (map n_id l) && negb (mem v ids).
Proof.
  induction l as [|n l IH]; simpl; [reflexivity|].
  destruct (mem (n_id n) ids) eqn:E; simpl; rewrite IH.
  - destruct (Z.eqb_spec v (n_id n)) as [->|_]; simpl; [|reflexivity].
    rewrite E. simpl. now rewrite andb_false_r.
  - destruct (Z.eqb_spec v (n_id n)) as [->|_]; simpl; [|reflexivity].
    now rewrite E.
Qed.

Lemma removeNodes_scene (s : AppState) (ids : list Z) :
  nodes (scene (do_removeNodes ids s))
  = filter (fun n => negb (mem (n_id n) ids)) (nodes (scene s))
  /\ edges (scene (do_removeNodes ids s))
     = filter (fun e => negb (touches ids e)) (edges (scene s)).
Proof.
  unfold do_removeNodes, removeNodes.
  destruct ids as [|i ids].
  - now rewrite !filter_all.
  - set (del := new_Set (i :: ids)).
    assert (Hn : forall l : list MindNode,
               filter (fun n => negb (has del (n_id n))) l
               = filter (fun n => negb (mem (n_id n) (i :: ids))) l).
    { intros l. apply filter_ext. intros n. unfold del. now rewrite has_new_Set. }
    assert (He : forall l : list Link,
               filter (fun e => negb (has del (e_source e))
                                && negb (has del (e_target e))) l
               = filter (fun e => negb (touches (i :: ids) e)) l).
    { intros l. apply filter_ext. intros e. unfold del, touches.
      rewrite !has_new_Set. now rewrite negb_orb. }
    destruct (match ids with
              | [] => match getParentId s i with
                      | Some parent => if negb (has del parent) then Some parent else None
                      | None => None
                      end
              | _ :: _ => None
              end) as [sel|];
      [destruct (findNode s sel)|]; cbn; rewrite Hn, He; split; reflexivity.
Qed.

(** C2. After [removeNodes(ids)] the nodes are those whose id is not in
    [ids] and the edges are those with neither end in [ids], both updates
    made by the one call: no edge of the store has its source or its target
    in [ids], and if no edge dangled before then none dangles after. *)
Theorem removeNodes_purges_edges (s : AppState) (ids : list Z) :
  let s' := do_removeNodes ids s in
  nodes (scene s') = filter (fun n => negb (mem (n_id n) ids)) (nodes (scene s))
  /\ edges (scene s') = filter (fun e => negb (touches ids e)) (edges (scene s))
  /\ Forall (fun e => mem (e_source e) ids = false /\ mem (e_target e) ids = false)
            (edges (scene s'))
  /\ (resolved (scene s) -> resolved (scene s')).
Proof.
  cbv zeta. destruct (removeNodes_scene s ids) as [Hn He].
  split; [exact Hn|]. split; [exact He|]. split.
  - rewrite He. apply Forall_forall. intros e He'.
    apply filter_In in He'. destruct He' as [_ Ht].
    unfold touches in Ht. apply negb_true_iff, orb_false_iff in Ht. exact Ht.
  - unfold resolved. rewrite Hn, He. intros Hres.
    apply Forall_forall. intros e He'.
    apply filter_In in He'. destruct He' as [Hin Ht].
    rewrite Forall_forall in Hres. destruct (Hres e Hin) as [Hs Hd].
    unfold touches in Ht. apply negb_true_iff, orb_false_iff in Ht.
    destruct Ht as [Hts Htd].
    rewrite !mem_ids_filter, Hs, Hd, Hts, Htd. split; reflexivity.
Qed.

Lemma removeNodes_purges_edges_witness :
  resolved (scene threeNodes)
  /\ edges (scene (do_removeNodes [2%Z] threeNodes)) = []
  /\ resolved (scene (do_removeNodes [2%Z] threeNodes)).
Proof.
  assert (H : resolved (scene threeNodes)).
  { repeat constructor. }
  split; [exact H|]. split; [reflexivity|].
  exact (proj2 (proj2 (proj2 (removeNodes_purges_edges threeNodes [2%Z]))) H).
Defined.

Lemma connects_sym a b e : connects a b e = connects b a e.
Proof. unfold connects. apply orb_comm. Qed.

Lemma pair_count_sym a b es : pair_count a b es = pair_count b a es.
Proof.
  unfold pair_count. f_equal. apply filter_ext. intros e. apply connects_sym.
Qed.

Lemma existsb_sym a b es : existsb (connects b a) es = existsb (connects a b) es.
Proof.
  induction es as [|e es IH]; simpl; [reflexivity|].
  now rewrite IH, (connects_sym b a e).
Qed.

Lemma connects_new a b now : a <> b -> connects a b (mkLink now a b None None) = true.
Proof. intros _. unfold connects. simpl. now rewrite !Z.eqb_refl. Qed.

Lemma pair_count_none a b es :
  existsb (connects a b) es = false -> pair_count a b es = 0%nat.
Proof.
  unfold pair_count. induction es as [|e es IH]; simpl; [reflexivity|].
  intros H. apply orb_false_iff in H. destruct H as [He Hes].
  rewrite He. now apply IH.
Qed.

Lemma ensureEdge_connected a b now (s : AppState) :
  existsb (connects a b) (edges (scene s)) = true ->
  do_ensureEdge a b now s = s /\ do_ensureEdge b a now s = s.
Proof.
  intros H. unfold do_ensureEdge, ensureEdge.
  assert (H' : existsb (connects b a) (edges (scene s)) = true).
  { now rewrite existsb_sym. }
  rewrite H, H'.
  destruct (a =? b)%Z, (b =? a)%Z; split; reflexivity.
Qed.



(** C10. When no node of the store has the id [parentId],
    [addChild(parentId)] returns [parentId] and leaves the whole state as
    it was: nodes, edges, selection, the undo and redo stacks and the queued
    timers. *)
Theorem addChild_unknown_parent (host : Host) (s : AppState) (parentId now : Z) :
  ~ In parentId (map n_id (nodes (scene s))) ->
  do_addChild host parentId now s = (parentId, s).
Proof.
  intros Hnot. unfold do_addChild, addChild.
  destruct (findNode s parentId) as [n|] eqn:E; [|reflexivity].
  exfalso. apply Hnot. unfold findNode in E.
  apply find_some in E. destruct E as [Hin Heq].
  apply Z.eqb_eq in Heq. rewrite <- Heq. now apply in_map.
Qed.

Lemma addChild_unknown_parent_witness :
  do_addChild (exampleHost None) 7 0 threeNodes = (7%Z, threeNodes).
Proof.
  apply (addChild_unknown_parent (exampleHost None) threeNodes 7 0).
  simpl. intros [H|[H|[H|[]]]]; discriminate H.
Defined.

(** ** Viewport *)

Lemma clamp_within (v a b : Q) : a <= b -> a <= clamp v a b <= b.
Proof.
  intros Hab. unfold clamp, Math_max, Math_min. split.
  - apply Q.le_max_l.
  - apply Q.max_lub; [exact Hab|apply Q.le_min_l].
Qed.

(** C7. A wheel event without Shift at the cursor [(mx, my)] (measured
    from the corner of the drawing surface) returns, sets the scale to the
    old scale times [exp(-deltaY * 0.0015)] clamped to [0.3, 3], and sets
    the pan so that the world point that was under the cursor is drawn at
    [(mx, my)] again, clamped or not. Arithmetic is exact here, so the
    equality holds without a tolerance. *)
Theorem wheel_zoom_pins_cursor (host : Host) (e : WheelEvent) (s : AppState)
        (rect : Rect) :
  wheelShift e = false ->
  svg s = Some rect ->
  exists s',
    wheel host e s = Returns s'
    /\ scale (scene s')
       = clamp (scale (scene s) * Math_exp host (- deltaY e * (15 # 10000))) (3 # 10) 3
    /\ 3 # 10 <= scale (scene s') <= 3
    /\ (let w := toWorld s (svg s) (wheelX e) (wheelY e) in
        let q := toScreen s' (p_x w) (p_y w) in
        p_x q == wheelX e - r_left rect /\ p_y q == wheelY e - r_top rect).
Proof.
  intros Hshift Hsvg. unfold wheel, onWheelSvg. rewrite Hshift, Hsvg. simpl.
  eexists. split; [reflexivity|]. simpl. split; [reflexivity|]. split.
  - apply clamp_within. lra.
  - unfold toScreen, toScreenAt, toWorld. simpl. split; ring.
Qed.

Lemma wheel_zoom_pins_cursor_witness :
  exists s',
    wheel (exampleHost None) (mkWheel 500 200 0 (-100) false)
          (initialState (mkPoint 400 300) (Some surface)) = Returns s'
    /\ 3 # 10 <= scale (scene s') <= 3.
Proof.
  destruct (wheel_zoom_pins_cursor (exampleHost None)
              (mkWheel 500 200 0 (-100) false)
              (initialState (mkPoint 400 300) (Some surface)) surface
              eq_refl eq_refl) as (s' & Hrun & _ & Hrange & _).
  exists s'. split; [exact Hrun|exact Hrange].
Defined.

(** ** Resizing with Shift and plus or minus *)

Lemma Math_round_near (v : Q) : v - (1 # 2) < Math_round v /\ Math_round v <= v + (1 # 2).
Proof.
  unfold Math_round.
  pose proof (Qfloor_le (v + (1 # 2))) as Hle.
  pose proof (Qlt_floor (v + (1 # 2))) as Hlt.
  rewrite inject_Z_plus in Hlt. change (inject_Z 1) with 1 in Hlt.
  split; lra.
Qed.

Lemma map_unselected (f : MindNode -> MindNode) (l : list MindNode) :
  map (fun n => if includes [] (n_id n) then f n else n) l = l.
Proof.
  induction l as [|n l IH]; [reflexivity|].
  cbn [map]. rewrite IH. reflexivity.
Qed.

Lemma resizeSelected_nodes (f : MindNode -> MindNode) (s : AppState) :
  nodes (scene (resizeSelected s f s))
  = map (fun n => if has (selectedIds (scene s)) (n_id n) then f n else n)
        (nodes (scene s)).
Proof.
  unfold resizeSelected, has, Array_from.
  destruct (items (selectedIds (scene s))) as [|i l] eqn:E.
  - symmetry. apply map_unselected.
  - reflexivity.
Qed.

Lemma keydown_plus host k c m a now (s : AppState) :
  editingId s = None ->
  keydown host (plusKey k c m a) now s = Returns (key_grow s s).
Proof.
  intros H. unfold keydown, handler. rewrite H.
  destruct k, c, m, a; reflexivity.
Qed.

Lemma keydown_minus host k c m a now (s : AppState) :
  editingId s = None ->
  keydown host (minusKey k c m a) now s = Returns (key_shrink s s).
Proof.
  intros H. unfold keydown, handler. rewrite H.
  destruct k, c, m, a; reflexivity.
Qed.

(** A node gets wider than 420 by its label alone: eighty letters without
    a space, laid out for a node 64 high. *)
Lemma long_label_is_wide :
  420 < n_w (resizeNodeForLabel (node_with_label firstNode (repeat 97%N 80))).
Proof. vm_compute. reflexivity. Qed.




(** ** History *)

Lemma scene_restore (sn : Snapshot) (p : AppState) :
  scene (restore sn p)
  = mkScene (s_nodes sn) (s_edges sn) (s_pan sn) (s_scale sn) (s_selectedId sn)
            (new_Set (s_selectedIds sn)) (new_Set (s_selectedEdgeIds sn)).
Proof. reflexivity. Qed.

Lemma restore_snapshot (s p : AppState) : scene (restore (snapshot s) p) = scene s.
Proof.
  rewrite scene_restore. unfold snapshot. cbn [s_nodes s_edges s_pan s_scale
    s_selectedId s_selectedIds s_selectedEdgeIds].
  rewrite !new_Set_Array_from. destruct (scene s); reflexivity.
Qed.

Lemma stacks_restore (sn : Snapshot) (p : AppState) :
  undoStack (restore sn p) = undoStack p /\ redoStack (restore sn p) = redoStack p.
Proof. split; reflexivity. Qed.

Lemma snapshot_scene (a b : AppState) : scene a = scene b -> snapshot a = snapshot b.
Proof. unfold snapshot. now intros ->. Qed.

Lemma undo_step (s : AppState) (sn : Snapshot) (rest : list Snapshot) :
  undoStack s = sn :: rest ->
  do_undo s = restore sn (set_stacks rest (snapshot s :: redoStack s) s).
Proof. intros H. unfold do_undo, undo. now rewrite H. Qed.

Lemma redo_step (s : AppState) (sn : Snapshot) (rest : list Snapshot) :
  redoStack s = sn :: rest ->
  do_redo s = restore sn (set_stacks (snapshot s :: undoStack s) rest s).
Proof. intros H. unfold do_redo, redo. now rewrite H. Qed.

(** The heart of the history mechanism: whenever the top of the undo stack
    is the snapshot of [s], undo brings back the scene of [s], and redo
    right after brings back the scene and the stacks undo was called on. *)
Lemma undo_then_redo (s s' : AppState) (rest : list Snapshot) :
  undoStack s' = snapshot s :: rest ->
  scene (do_undo s') = scene s
  /\ scene (do_redo (do_undo s')) = scene s'
  /\ undoStack (do_redo (do_undo s')) = undoStack s'
  /\ redoStack (do_redo (do_undo s')) = redoStack s'.
Proof.
  intros Htop.
  assert (Hscene : scene (do_undo s') = scene s).
  { rewrite (undo_step s' _ _ Htop). apply restore_snapshot. }
  assert (Hredo : redoStack (do_undo s') = snapshot s' :: redoStack s').
  { rewrite (undo_step s' _ _ Htop). reflexivity. }
  assert (Hundo : undoStack (do_undo s') = rest).
  { rewrite (undo_step s' _ _ Htop). reflexivity. }
  split; [exact Hscene|].
  rewrite (redo_step _ _ _ Hredo).
  split; [apply restore_snapshot|].
  split.
  - destruct (stacks_restore (snapshot s')
                (set_stacks (snapshot (do_undo s') :: undoStack (do_undo s'))
                            (redoStack s') (do_undo s'))) as [-> _].
    cbn [undoStack set_stacks]. rewrite Hundo, Htop.
    f_equal. now apply snapshot_scene.
  - reflexivity.
Qed.

(** *** Which handlers record a snapshot, and of what *)

Lemma undo_bringBoxAt pn sc cx cy w h margin p :
  undoStack (bringBoxAt pn sc cx cy w h margin p) = undoStack p.
Proof.
  unfold bringBoxAt. destruct (svg p); [|reflexivity].
  match goal with |- context [if ?c then _ else _] => destruct c end; reflexivity.
Qed.

Lemma gesture_bringBoxAt pn sc cx cy w h margin p :
  gesture (bringBoxAt pn sc cx cy w h margin p) = gesture p.
Proof.
  unfold bringBoxAt. destruct (svg p); [|reflexivity].
  match goal with |- context [if ?c then _ else _] => destruct c end; reflexivity.
Qed.

Lemma undo_bringBoxIntoView s cx cy w h margin p :
  undoStack (bringBoxIntoView s cx cy w h margin p) = undoStack p.
Proof. apply undo_bringBoxAt. Qed.

Lemma undo_later s cx cy w h p :
  undoStack (later_bringBoxIntoView s cx cy w h p) = undoStack p.
Proof. reflexivity. Qed.

Lemma undo_selectOnly v p : undoStack (selectOnly v p) = undoStack p.
Proof. reflexivity. Qed.

Lemma undo_clearSelection p : undoStack (clearSelection p) = undoStack p.
Proof. reflexivity. Qed.

Lemma undo_pushHistory s p : undoStack (pushHistory s p) = snapshot s :: undoStack p.
Proof. reflexivity. Qed.

Lemma undo_flush p : undoStack (flush p) = undoStack p.
Proof.
  unfold flush.
  assert (H : forall ts q, undoStack (fold_left (fun q t => run_timer t q) ts q)
                           = undoStack q).
  { induction ts as [|t ts IH]; intros q; simpl; [reflexivity|].
    rewrite IH. apply undo_bringBoxAt. }
  now rewrite H.
Qed.

Create Rewrite HintDb hist.
#[local] Hint Rewrite undo_bringBoxAt undo_bringBoxIntoView undo_later
  undo_selectOnly undo_clearSelection undo_pushHistory undo_flush : hist.

Lemma undo_ensureEdge s a b now p : undoStack (ensureEdge s a b now p) = undoStack p.
Proof.
  unfold ensureEdge. destruct (a =? b)%Z; [reflexivity|].
  destruct (negb _); reflexivity.
Qed.

Lemma undo_addStandalone host s at_ p :
  undoStack (snd (addStandalone host s at_ p)) = snapshot s :: undoStack p.
Proof.
  unfold addStandalone. destruct at_ as [a|].
  - reflexivity.
  - cbn [svg pushHistory set_stacks]. destruct (svg p); reflexivity.
Qed.

Lemma undo_addChild host s v now p :
  hist_ok s p (snd (addChild host s v now p)).
Proof.
  unfold hist_ok, addChild. destruct (findNode s v); [right|left]; reflexivity.
Qed.

Lemma undo_addSiblingOf host s v now p :
  hist_ok s p (snd (addSiblingOf host s v now p)).
Proof.
  unfold addSiblingOf. destruct (getParentId s v).
  - apply undo_addChild.
  - right. apply undo_addStandalone.
Qed.

Lemma undo_removeEdges s ids p : hist_ok s p (removeEdges s ids p).
Proof.
  unfold hist_ok, removeEdges. destruct ids; [left|right]; reflexivity.
Qed.

Lemma undo_removeNodes s ids p : hist_ok s p (removeNodes s ids p).
Proof.
  unfold hist_ok, removeNodes. destruct ids as [|i ids]; [left; reflexivity|right].
  match goal with
  | |- context [match ?next with Some _ => _ | None => _ end] =>
      destruct next as [sel|]
  end; [destruct (findNode s sel)|]; reflexivity.
Qed.

Lemma undo_resizeSelected s f p : hist_ok s p (resizeSelected s f p).
Proof.
  unfold hist_ok, resizeSelected.
  destruct (Array_from (selectedIds (scene s))); [left|right]; reflexivity.
Qed.

Lemma undo_key_enter host s v now p : hist_ok s p (key_enter host s v now p).
Proof.
  unfold key_enter. pose proof (undo_addChild host s v now p) as H.
  destruct (addChild host s v now p) as [newId q]. exact H.
Qed.

Lemma undo_key_shiftEnter host s v now p : hist_ok s p (key_shiftEnter host s v now p).
Proof.
  unfold key_shiftEnter. pose proof (undo_addSiblingOf host s v now p) as H.
  destruct (addSiblingOf host s v now p) as [newId q]. exact H.
Qed.

Lemma undo_key_shiftBackspace s p : hist_ok s p (key_shiftBackspace s p).
Proof.
  unfold key_shiftBackspace.
  destruct (0 <? size (selectedIds (scene s)))%nat; [apply undo_removeNodes|].
  destruct (0 <? size (selectedEdgeIds (scene s)))%nat; [apply undo_removeEdges|].
  now left.
Qed.

Lemma undo_key_backspace s p : hist_ok s p (key_backspace s p).
Proof.
  unfold key_backspace.
  destruct (Array_from (selectedIds (scene s))) as [|v [|v' l]].
  - now left.
  - right. reflexivity.
  - apply undo_removeNodes.
Qed.

Lemma undo_key_char s c p : hist_ok s p (key_char s c p).
Proof.
  unfold hist_ok, key_char.
  destruct (0 <? size (selectedEdgeIds (scene s)))%nat; [right; reflexivity|].
  destruct (1 <=? size (selectedIds (scene s)))%nat; [right|left]; reflexivity.
Qed.

Lemma undo_key_altTab s v p : undoStack (key_altTab s v p) = undoStack p.
Proof.
  unfold key_altTab. destruct (getChildrenOf s v); [reflexivity|].
  destruct (findNode s z); now autorewrite with hist.
Qed.

Lemma undo_key_arrow host s v dx dy p q :
  key_arrow host s v dx dy p = Returns q -> undoStack q = undoStack p.
Proof.
  unfold key_arrow. destruct (findNode s v); [|now intros [= <-]].
  match goal with
  | |- context [match ?b with Some _ => _ | None => _ end = Returns q] =>
      destruct b as [[bid bs]|]
  end; [|now intros [= <-]].
  destruct (findNode s bid); intros [= <-]. now autorewrite with hist.
Qed.

Lemma undo_walkPath s path idx p q :
  walkPath s path idx p = Returns q -> undoStack q = undoStack p.
Proof.
  unfold walkPath.
  assert (Hmove : forall idx',
    match at_index path idx' with
    | Some nextId =>
        match findNode s nextId with
        | Some n => Returns (bringBoxIntoView s (n_x n) (n_y n) (n_w n) (n_h n) 24
                               (selectOnly nextId (set_shiftTab (shiftTabPath p) idx' p)))
        | None => Returns (selectOnly nextId (set_shiftTab (shiftTabPath p) idx' p))
        end
    | None => Untyped
    end = Returns q -> undoStack q = undoStack p).
  { intros idx'. destruct (at_index path idx'); [|discriminate].
    destruct (findNode s z); intros [= <-]; now autorewrite with hist. }
  destruct (0 <? idx)%Z; [apply Hmove|].
  destruct (idx <? _)%Z; [apply Hmove|].
  now intros [= <-].
Qed.

Lemma undo_key_shiftTab s v p q :
  key_shiftTab s v p = Returns q -> undoStack q = undoStack p.
Proof.
  unfold key_shiftTab.
  assert (Hfresh :
    match buildRootPath s v with
    | Some path =>
        walkPath s path (Z.of_nat (List.length path) - 1)
                 (set_shiftTab (Some path) (Z.of_nat (List.length path) - 1) p)
    | None => Hangs
    end = Returns q -> undoStack q = undoStack p).
  { destruct (buildRootPath s v); [|discriminate].
    intros H. now apply undo_walkPath in H. }
  destruct (shiftTabPath p) as [path|]; [|exact Hfresh].
  destruct (indexOf path v =? -1)%Z; [exact Hfresh|].
  apply undo_walkPath.
Qed.

Lemma undo_key_tab host s v p q :
  key_tab host s v p = Returns q -> undoStack q = undoStack p.
Proof.
  unfold key_tab. destruct (getSiblingsClockwise host s v) as [order|]; [|discriminate].
  destruct (List.length order <=? 1)%nat; [now intros [= <-]|].
  destruct (at_index order _); [|discriminate].
  destruct (findNode s z); intros [= <-]; now autorewrite with hist.
Qed.

Ltac split_if :=
  match goal with
  | |- context [if ?c then _ else _] => destruct c
  end.

(** A key other than Undo and Redo leaves the undo stack alone or pushes
    the snapshot of the state it was pressed in. *)
Lemma handler_hist host s e now p q :
  is_undo_key e = false -> is_redo_key e = false ->
  handler host s e now p = Returns q -> hist_ok s p q.
Proof.
  unfold is_undo_key, is_redo_key, handler. intros -> ->.
  destruct (opt_is_some (editingId s)); [intros [= <-]; now left|].
  destruct (focusInField e); [intros [= <-]; now left|].
  destruct (shiftKey e && (key_is e "+" || key_is e "="));
    [intros [= <-]; apply undo_resizeSelected|].
  destruct (shiftKey e && (key_is e "-" || key_is e "_"));
    [intros [= <-]; apply undo_resizeSelected|].
  destruct (if key_is e "ArrowUp" || key_is e "ArrowDown" || key_is e "ArrowLeft"
               || key_is e "ArrowRight" then selectedId (scene s) else None)
    as [sel|].
  { repeat split_if; intros H; left; now apply undo_key_arrow in H. }
  destruct (selectedId (scene s)) as [sel|].
  - destruct (key_is e "Enter" && (size (selectedIds (scene s)) =? 1)%nat
              && negb (shiftKey e));
      [intros [= <-]; apply undo_key_enter|].
    destruct (key_is e "Enter" && shiftKey e && (size (selectedIds (scene s)) =? 1)%nat);
      [intros [= <-]; apply undo_key_shiftEnter|].
    destruct (key_is e "Escape"); [intros [= <-]; now left|].
    destruct (key_is e "Backspace" && shiftKey e);
      [intros [= <-]; apply undo_key_shiftBackspace|].
    destruct (key_is e "Backspace"); [intros [= <-]; apply undo_key_backspace|].
    destruct (key_is e "Tab" && shiftKey e && (size (selectedIds (scene s)) =? 1)%nat);
      [intros H; left; now apply undo_key_shiftTab in H|].
    destruct (key_is e "Tab" && negb (shiftKey e)
              && (size (selectedIds (scene s)) =? 1)%nat);
      [intros H; left; now apply undo_key_tab in H|].
    destruct (key_is e "Tab" && (altKey e || metaKey e)
              && (size (selectedIds (scene s)) =? 1)%nat);
      [intros [= <-]; left; apply undo_key_altTab|].
    split_if; intros [= <-]; [apply undo_key_char|now left].
  - destruct (key_is e "Escape"); [intros [= <-]; now left|].
    destruct (key_is e "Backspace" && shiftKey e);
      [intros [= <-]; apply undo_key_shiftBackspace|].
    destruct (key_is e "Backspace"); [intros [= <-]; apply undo_key_backspace|].
    split_if; intros [= <-]; [apply undo_key_char|now left].
Qed.

Lemma undo_onPointerDownSvg host s e p :
  undoStack (onPointerDownSvg host s e p) = undoStack p.
Proof.
  unfold onPointerDownSvg.
  match goal with
  | |- context [match map snd ?m with _ => _ end] =>
      destruct (map snd m) as [|a [|b [|c l]]]
  end; try reflexivity.
  all: destruct (getCentroidAndDistance host a b) as [[cx cy] d]; reflexivity.
Qed.

(** Shift and pointer down on a node: the link command or the start of a
    link gesture. *)
Lemma shiftClick_hist host e v now s q :
  pointerShift e = true ->
  pointerDownOnNode host e v now s = Returns q -> hist_ok s s q.
Proof.
  intros Hshift. unfold pointerDownOnNode, onPointerDownNode. rewrite Hshift.
  destruct (opt_is_some (editingId s)).
  { intros [= <-]. left. apply undo_onPointerDownSvg. }
  destruct (selectedId (scene s)) as [sel|].
  - destruct (negb (sel =? v)%Z).
    + intros [= <-]. right.
      rewrite undo_selectOnly, undo_ensureEdge. reflexivity.
    + destruct (findNode s v); intros [= <-]. now left.
  - destruct (findNode s v); intros [= <-]. now left.
Qed.

(** A pointer release when no drag is under way: a link drop, the end of a
    marquee or of a pan. *)
Lemma release_hist e now s :
  somethingMoved (gesture s) = false -> hist_ok s s (pointerUp e now s).
Proof.
  intros Hmoved. unfold hist_ok, pointerUp, onPointerUpSvg.
  repeat match goal with
         | |- context [if ?c then _ else _] =>
             lazymatch c with
             | context [somethingMoved] => fail
             | _ => destruct c
             end
         | |- context [match findNodeAt ?a ?b ?c ?d with _ => _ end] =>
             destruct (findNodeAt a b c d)
         | |- context [match ?o with Some _ => _ | None => _ end] =>
             lazymatch o with
             | sourceId _ => destruct o
             end
         end;
    cbn; rewrite ?Hmoved; cbn; auto.
Qed.

Lemma undo_menu host s m now p : hist_ok s p (menu host s m now p).
Proof.
  destruct m as [at_|rgba| | |t|t|t|t|t rgba|t|t color|t|t|t next|t]; cbn [menu].
  - pose proof (undo_addStandalone host s at_ p) as H.
    destruct (addStandalone host s at_ p) as [v q]. now right.
  - unfold hist_ok, applyFillToSelection, fillSelection.
    destruct (Array_from (selectedIds (scene s))); [left|right]; reflexivity.
  - unfold hist_ok, clearFillOfSelection, fillSelection.
    destruct (Array_from (selectedIds (scene s))); [left|right]; reflexivity.
  - apply undo_key_shiftBackspace.
  - now left.
  - pose proof (undo_addChild host s t now p) as H.
    destruct (addChild host s t now p) as [v q]. exact H.
  - pose proof (undo_addSiblingOf host s t now p) as H.
    destruct (addSiblingOf host s t now p) as [v q]. exact H.
  - now right.
  - now right.
  - now right.
  - now right.
  - apply undo_removeNodes.
  - now right.
  - destruct next; [now right|now left].
  - apply undo_removeEdges.
Qed.

Lemma apply_hist host now c s s' :
  apply host now c s = Some s' -> hist_ok s s s'.
Proof.
  unfold apply. intros H.
  assert (Hflush : forall q, hist_ok s s q -> Some (flush q) = Some s' -> hist_ok s s s').
  { intros q Hq [= <-]. unfold hist_ok in *. now rewrite undo_flush. }
  destruct c as [at_|v|v|ids|ids|e|e v|e|m|text]; cbn [option_map] in H.
  - eapply Hflush; [|exact H]. right. apply undo_addStandalone.
  - eapply Hflush; [|exact H]. apply undo_addChild.
  - eapply Hflush; [|exact H]. apply undo_addSiblingOf.
  - eapply Hflush; [|exact H]. apply undo_removeNodes.
  - eapply Hflush; [|exact H]. apply undo_removeEdges.
  - destruct (is_undo_key e) eqn:Hu; [discriminate|].
    destruct (is_redo_key e) eqn:Hr; [discriminate|].
    cbn [orb] in H. unfold keydown in H.
    destruct (handler host s e now s) as [q| | |] eqn:Hq; try discriminate.
    eapply Hflush; [|exact H]. eapply handler_hist; eassumption.
  - destruct (pointerShift e) eqn:Hs; [|discriminate].
    destruct (pointerDownOnNode host e v now s) as [q| | |] eqn:Hq; try discriminate.
    eapply Hflush; [|exact H]. eapply shiftClick_hist; eassumption.
  - destruct (somethingMoved (gesture s)) eqn:Hm; [discriminate|].
    eapply Hflush; [|exact H]. now apply release_hist.
  - eapply Hflush; [|exact H]. apply undo_menu.
  - eapply Hflush; [|exact H]. unfold onInputChange.
    destruct (editingId s); [now right|now left].
Qed.



(** A wheel event, zoom or pan, records nothing: undo does not take it
    back. *)
Lemma wheel_keeps_history host e s s' :
  wheel host e s = Returns s' ->
  undoStack s' = undoStack s /\ redoStack s' = redoStack s.
Proof.
  unfold wheel, onWheelSvg. destruct (negb (wheelShift e)).
  - destruct (svg s); [|discriminate]. intros [= <-]. split; reflexivity.
  - intros [= <-]. split; reflexivity.
Qed.

(** *** A drag is recorded after the move *)

(** The release that ends a drag (no marquee, no link under way) changes
    no state cell and pushes the snapshot of the scene as the drag left
    it: undo right after brings back that same scene, the moved nodes
    included. *)
Lemma drag_release_is_recorded_late e now s :
  somethingMoved (gesture s) = true ->
  m_active (marquee s) = false ->
  phase (linking s) = idle ->
  scene (pointerUp e now s) = scene s
  /\ undoStack (pointerUp e now s) = snapshot s :: undoStack s
  /\ scene (do_undo (pointerUp e now s)) = scene s.
Proof.
  intros Hmoved Hmarquee Hlink.
  assert (H : scene (pointerUp e now s) = scene s
              /\ undoStack (pointerUp e now s) = snapshot s :: undoStack s).
  { unfold pointerUp, onPointerUpSvg. rewrite Hmarquee, Hlink. cbn.
    destruct (List.length (touch_delete (pointerId e) (activeTouches (gesture s)))
              <=? 1)%nat;
      cbn; rewrite Hmoved; split; reflexivity. }
  destruct H as [Hscene Hundo]. split; [exact Hscene|]. split; [exact Hundo|].
  exact (proj1 (undo_then_redo s _ _ Hundo)).
Qed.


(** ** Shift+Tab *)

Lemma climb_chain s fuel : forall cur up path,
  climb s fuel cur up = Some path ->
  exists t, is_chain s (cur :: t) /\ path = rev (cur :: t) ++ up.
Proof.
  induction fuel as [|k IH]; intros cur up path; cbn [climb]; [discriminate|].
  destruct (getParentId s cur) as [par|] eqn:E.
  - intros H. destruct (IH _ _ _ H) as (t & Hc & ->).
    exists (par :: t). split; [now split|].
    simpl. now rewrite <- !app_assoc.
  - intros [= <-]. exists []. split; [exact E|reflexivity].
Qed.

Lemma chain_climb s : forall t cur up fuel,
  is_chain s (cur :: t) -> (List.length t < fuel)%nat ->
  climb s fuel cur up = Some (rev (cur :: t) ++ up).
Proof.
  induction t as [|d t IH]; intros cur up fuel Hc Hlt;
    (destruct fuel as [|k]; [simpl in Hlt; lia|]); simpl in *.
  - now rewrite Hc.
  - destruct Hc as [Hp Hc]. rewrite Hp.
    rewrite (IH d (cur :: up) k Hc); [|lia].
    simpl. now rewrite <- !app_assoc.
Qed.

Lemma chain_det s : forall l c l',
  is_chain s (c :: l) -> is_chain s (c :: l') -> l = l'.
Proof.
  induction l as [|d l IH]; intros c [|d' l']; simpl; intros H H'.
  - reflexivity.
  - destruct H' as [H' _]. congruence.
  - destruct H as [H _]. congruence.
  - destruct H as [H Hl], H' as [H' Hl'].
    assert (d = d') by congruence. subst d'.
    f_equal. now apply (IH d).
Qed.

Lemma chain_suffix s : forall l1 c l2,
  is_chain s (l1 ++ c :: l2) -> is_chain s (c :: l2).
Proof.
  induction l1 as [|a l1 IH]; intros c l2 H; [exact H|].
  apply IH. simpl in H. destruct (l1 ++ c :: l2) eqn:E.
  - now destruct l1.
  - now destruct H.
Qed.

Lemma chain_nodup s : forall l, is_chain s l -> NoDup l.
Proof.
  induction l as [|c t IH]; intros H; [constructor|].
  constructor.
  - intros Hin. apply in_split in Hin. destruct Hin as (t1 & t2 & Ht).
    assert (H2 : is_chain s (c :: t2)).
    { apply (chain_suffix s (c :: t1)). simpl. now rewrite <- Ht. }
    pose proof (chain_det s _ _ _ H H2) as Heq.
    apply (f_equal (@List.length Z)) in Heq. rewrite Ht in Heq at 1.
    rewrite length_app in Heq. simpl in Heq. lia.
  - destruct t as [|d t]; [constructor|]. apply IH. now destruct H.
Qed.

Lemma chain_edges s : forall t c,
  is_chain s (c :: t) ->
  exists es, map e_target es = removelast (c :: t) /\ incl es (edges (scene s)).
Proof.
  induction t as [|d t IH]; intros c H.
  - exists []. split; [reflexivity|]. intros e [].
  - destruct H as [Hp Hc]. destruct (IH d Hc) as (es & Hmap & Hincl).
    unfold getParentId in Hp.
    destruct (find (fun ed => (e_target ed =? c)%Z) (edges (scene s))) as [e|] eqn:E;
      [|discriminate].
    apply find_some in E. destruct E as [Hin Ht]. apply Z.eqb_eq in Ht.
    exists (e :: es). split.
    + change (removelast (c :: d :: t)) with (c :: removelast (d :: t)).
      simpl. now rewrite Ht, Hmap.
    + intros x [<-|Hx]; [exact Hin|now apply Hincl].
Qed.

Lemma chain_short s t c :
  is_chain s (c :: t) -> (List.length t <= List.length (edges (scene s)))%nat.
Proof.
  intros H. destruct (chain_edges s t c H) as (es & Hmap & Hincl).
  assert (Hnd : NoDup (removelast (c :: t))).
  { pose proof (chain_nodup s _ H) as Hn.
    rewrite (app_removelast_last 0%Z (l := c :: t)) in Hn by discriminate.
    now apply NoDup_remove_1 in Hn; rewrite app_nil_r in Hn. }
  rewrite <- Hmap in Hnd. apply NoDup_map_inv in Hnd.
  pose proof (NoDup_incl_length Hnd Hincl) as Hlen.
  assert (Hl : List.length es = List.length t).
  { rewrite <- (length_map e_target), Hmap.
    clear. revert c. induction t as [|d t IH]; intros c; [reflexivity|].
    change (removelast (c :: d :: t)) with (c :: removelast (d :: t)).
    cbn [List.length]. f_equal. apply IH. }
  lia.
Qed.

(** The fuel of [buildRootPath] is enough: a climb that ends with any
    fuel ends with it, so [None] stands for a loop that does not end. *)
Lemma buildRootPath_fuel_enough s v fuel path :
  climb s fuel v [] = Some path -> buildRootPath s v = Some path.
Proof.
  intros H. destruct (climb_chain s fuel _ _ _ H) as (t & Hc & ->).
  unfold buildRootPath. apply chain_climb; [exact Hc|].
  pose proof (chain_short s t v Hc). lia.
Qed.

Lemma buildRootPath_hangs s v :
  buildRootPath s v = None -> forall fuel, climb s fuel v [] = None.
Proof.
  intros H fuel. destruct (climb s fuel v []) as [path|] eqn:E; [|reflexivity].
  apply buildRootPath_fuel_enough in E. congruence.
Qed.


(** [selectOnly] forgets the Shift+Tab path, whatever it was. *)
Lemma selectOnly_forgets_path (v : Z) (p : AppState) :
  shiftTabPath (selectOnly v p) = None /\ shiftTabIndex (selectOnly v p) = 0%Z.
Proof. split; reflexivity. Qed.

(** C4: what the code does on the scenario. The root path of node 2 is
    [1, 2]. The first Shift+Tab selects node 1, and the [selectOnly] that
    does so forgets the path; the second Shift+Tab therefore rebuilds the
    path from node 1, finds it alone on it, and returns with node 1 still
    selected, as does every later one. Node 2 is not selected again. *)
Lemma shiftTab_stays_at_root (host : Host) (now : Z) :
  buildRootPath parentAndChild 2 = Some [1%Z; 2%Z]
  /\ exists s1 s2,
       keydown host shiftTabKey now parentAndChild = Returns s1
       /\ selectedId (scene s1) = Some 1%Z
       /\ items (selectedIds (scene s1)) = [1%Z]
       /\ shiftTabPath s1 = None
       /\ keydown host shiftTabKey now s1 = Returns s2
       /\ selectedId (scene s2) = Some 1%Z
       /\ items (selectedIds (scene s2)) = [1%Z]
       /\ shiftTabPath s2 = Some [1%Z]
       /\ keydown host shiftTabKey now s2 = Returns s2.
Proof.
  split; [reflexivity|].
  eexists. eexists.
  split; [vm_compute; reflexivity|].
  split; [reflexivity|]. split; [reflexivity|]. split; [reflexivity|].
  split; [vm_compute; reflexivity|].
  split; [reflexivity|]. split; [reflexivity|]. split; [reflexivity|].
  vm_compute; reflexivity.
Qed.

(** ** Persistence *)

Lemma migrateNode_spec host n :
  migrateNode host n = if is_null n then Throw else Ok (nodeOf host n).
Proof. destruct n; reflexivity. Qed.

Lemma migrateEdge_spec host e :
  migrateEdge host e = if is_null e then Throw else Ok (edgeOf host e).
Proof. destruct e; reflexivity. Qed.

Lemma map_outcome_spec {A B} (f : A -> outcome B) (g : A -> B) (bad : A -> bool) :
  (forall a, f a = if bad a then Throw else Ok (g a)) ->
  forall l, map_outcome f l = if existsb bad l then Throw else Ok (map g l).
Proof.
  intros Hf. induction l as [|a l IH]; simpl; [reflexivity|].
  rewrite Hf, IH. destruct (bad a); simpl; [reflexivity|].
  destruct (existsb bad l); reflexivity.
Qed.



